(** * The retry engine of query-core (retryer.ts): model and properties

    [CreateRetryer] builds a closure over three flags, a pause continuation
    and a result promise, and drives a loop made of promise reactions.  The
    model keeps the closure's variables in a record, names the reaction of
    the loop that is pending at any moment ([Thread]), and lets the host
    deliver the events that a JavaScript run loop delivers: settlement of
    the unit of work, expiry of the delay timer, the next queued reaction,
    the four control calls, and changes of the two gates.  Everything the
    engine does to the outside (invoking [fn], the hooks, [sleep], and the
    two functions that settle the result promise) is appended to a log.

    Conventions of the model:
    - a JavaScript [number] that the engine counts or compares is an
      integer of [Z];
    - hooks, the retry predicate and the delay function return normally
      and do not call back into the engine;
    - [onlineManager] and [sleep] live outside the files modelled here:
      the first is a boolean of the host that may change at any time, the
      second a timer whose expiry is an event. *)

From Stdlib Require Import ZArith List Bool String Lia.
Import ListNotations.
Open Scope Z_scope.

Set Implicit Arguments.

(** ** types.ts *)

Inductive NetworkMode := online | always | offlineFirst.

Record CancelOptions := mkCancelOptions {
  revert : option bool;
  silent : option bool
}.

(** ** focusManager.ts and the online gate *)

(** The host: [document.visibilityState] ([None] is [undefined]) and the
    answer of [onlineManager.isOnline()]. *)
Record Host := mkHost {
  visibilityState : option string;
  isOnline : bool
}.

Definition option_string_eqb (a b : option string) : bool :=
  match a, b with
  | None, None => true
  | Some x, Some y => String.eqb x y
  | _, _ => false
  end.

(** [[undefined, "visible", "prerender"].includes(document.visibilityState)] *)
Definition isFocused (h : Host) : bool :=
  existsb (option_string_eqb (visibilityState h))
          [None; Some "visible"%string; Some "prerender"%string].

(** ** retryer.ts: the pure part *)

(** [Math.min(1000 * 2 ** failureCount, 30000)] *)
Definition defaultRetryDelay (failureCount : Z) : Z :=
  Z.min (1000 * 2 ^ failureCount) 30000.

(** [(networkMode ?? "online") === "online" ? onlineManager.isOnline() : true] *)
Definition canFetch (h : Host) (networkMode : option NetworkMode) : bool :=
  match match networkMode with Some m => m | None => online end with
  | online => isOnline h
  | _ => true
  end.

Definition is_always (m : option NetworkMode) : bool :=
  match m with Some always => true | _ => false end.

(** The class [CancelledError]: the constructor copies [options?.revert]
    and [options?.silent]. *)
Record CancelledError := mkCancelledError {
  cancelled_revert : option bool;
  cancelled_silent : option bool
}.

Definition newCancelledError (options : option CancelOptions) : CancelledError :=
  mkCancelledError
    (match options with Some o => revert o | None => None end)
    (match options with Some o => silent o | None => None end).

Section Retryer.

Context {TData TError : Type}.

(** What a promise settles to. *)
Inductive Settled :=
  | Fulfilled (data : TData)
  | Rejected (error : TError).

(** What one invocation of [config.fn] does: return a plain value, throw,
    or return a promise (which, if it settles, settles as given). *)
Inductive FnBehaviour :=
  | Returns (data : TData)
  | Throws (error : TError)
  | ReturnsPromise (p : Settled).

(** [try { promiseOrValue = config.fn() } catch (error) { promiseOrValue =
    Promise.reject(error) }] followed by [Promise.resolve(promiseOrValue)]. *)
Definition promiseOrValue (b : FnBehaviour) : Settled :=
  match b with
  | Returns v => Fulfilled v
  | Throws e => Rejected e
  | ReturnsPromise p => p
  end.

(** A value the result promise is rejected with: what the unit of work
    failed with, passed on as it is, or the [CancelledError] made by
    [cancel]. *)
Inductive Failure :=
  | WorkError (error : TError)
  | Cancellation (c : CancelledError).

(** [value instanceof CancelledError].  The object made by [cancel] is an
    instance.  The class is exported, so the unit of work may itself throw
    or reject with an instance of it: whether a value it failed with is
    one is a fact about that value, given by [isInstance]. *)
Definition isCancelledError (isInstance : TError -> bool) (value : Failure) : bool :=
  match value with
  | Cancellation _ => true
  | WorkError error => isInstance error
  end.

Inductive RetryValue :=
  | RetryBool (b : bool)
  | RetryNumber (n : Z)
  | RetryFunction (f : Z -> TError -> bool).

Inductive RetryDelayValue :=
  | DelayNumber (ms : Z)
  | DelayFunction (f : Z -> TError -> Z).

(** [RetryerConfig].  [fn k] is the behaviour of the invocation number [k]
    (counted from 0) of the unit of work; a hook is [true] when the caller
    supplied it, so that [config.hook?.()] calls it or does nothing. *)
Record RetryerConfig := mkConfig {
  fn : nat -> FnBehaviour;
  abort : bool;
  onError : bool;
  onSuccess : bool;
  onFail : bool;
  onPause : bool;
  onContinue : bool;
  retry : option RetryValue;
  retryDelay : option RetryDelayValue;
  networkMode : option NetworkMode
}.

(** Everything the engine does to the outside, in order. *)
Inductive Event :=
  | CallFn
  | CallOnSuccess (data : TData)
  | CallOnError (value : Failure)
  | CallOnFail (failureCount : Z) (error : TError)
  | CallOnPause
  | CallOnContinue
  | CallAbort
  | CallSleep (delay : Z)
  | PromiseResolve (data : TData)
  | PromiseReject (value : Failure).

(** The closure stored in [continueFn]; it captures [continueResolve], the
    resolver of the pause promise that is open. *)
Inductive Continuation := ContinueResolve.

(** What the chain does once a pause has closed: [pause().then(run)] at
    startup, or the last [.then] of the sleep chain, which still holds the
    [error] of the failed attempt. *)
Inductive Resume :=
  | ThenRun
  | ThenRetry (error : TError).

(** The reaction of the loop that is pending. *)
Inductive Thread :=
  | Idle
  | AwaitingFn (p : Settled)
  | Sleeping (error : TError)
  | Paused (k : Resume)
  | PauseClosing (k : Resume)
  | Resuming (k : Resume).

(** The variables closed over by [CreateRetryer], the pending reaction,
    the host and the log. *)
Record State := mkState {
  isRetryCancelled : bool;
  failureCount : Z;
  isResolved : bool;
  continueFn : option Continuation;
  thread : Thread;
  host : Host;
  log : list Event
}.

(** Assignments to the variables of the closure. *)
Definition set_isRetryCancelled (b : bool) (s : State) : State :=
  match s with mkState _ fc r c t h l => mkState b fc r c t h l end.

Definition set_failureCount (n : Z) (s : State) : State :=
  match s with mkState rc _ r c t h l => mkState rc n r c t h l end.

Definition set_isResolved (b : bool) (s : State) : State :=
  match s with mkState rc fc _ c t h l => mkState rc fc b c t h l end.

Definition set_continueFn (c : option Continuation) (s : State) : State :=
  match s with mkState rc fc r _ t h l => mkState rc fc r c t h l end.

Definition set_thread (t : Thread) (s : State) : State :=
  match s with mkState rc fc r c _ h l => mkState rc fc r c t h l end.

Definition set_host (h : Host) (s : State) : State :=
  match s with mkState rc fc r c t _ l => mkState rc fc r c t h l end.

(** An effect on the outside, appended to the log. *)
Definition emit (e : Event) (s : State) : State :=
  match s with mkState rc fc r c t h l => mkState rc fc r c t h (l ++ [e]) end.

(** [config.hook?.(...)]: the call is made when the hook is present. *)
Definition call (present : bool) (e : Event) (s : State) : State :=
  match s with
  | mkState rc fc r c t h l => mkState rc fc r c t h (l ++ if present then [e] else [])
  end.

(** Number of invocations of the unit of work so far. *)
Fixpoint attempts (l : list Event) : nat :=
  match l with
  | [] => O
  | CallFn :: l' => S (attempts l')
  | _ :: l' => attempts l'
  end.

(** The calls of [onFail], in order. *)
Fixpoint onFailCalls (l : list Event) : list (Z * TError) :=
  match l with
  | [] => []
  | CallOnFail n e :: l' => (n, e) :: onFailCalls l'
  | _ :: l' => onFailCalls l'
  end.

(** The calls of [onPause]. *)
Fixpoint onPauseCalls (l : list Event) : nat :=
  match l with
  | [] => O
  | CallOnPause :: l' => S (onPauseCalls l')
  | _ :: l' => onPauseCalls l'
  end.

(** The calls of [config.abort]. *)
Fixpoint abortCalls (l : list Event) : nat :=
  match l with
  | [] => O
  | CallAbort :: l' => S (abortCalls l')
  | _ :: l' => abortCalls l'
  end.

(** An outcome handed to the result promise. *)
Inductive Outcome :=
  | Success (data : TData)
  | Failed (value : Failure).

(** The calls of [promiseResolve] and [promiseReject], in order. *)
Fixpoint settlements (l : list Event) : list Outcome :=
  match l with
  | [] => []
  | PromiseResolve v :: l' => Success v :: settlements l'
  | PromiseReject e :: l' => Failed e :: settlements l'
  | _ :: l' => settlements l'
  end.

Section Engine.

Variable config : RetryerConfig.

(** [!focusManager.isFocused() || (config.networkMode === "always" &&
    !onlineManager.isOnline())] *)
Definition shouldPause (h : Host) : bool :=
  negb (isFocused h) || (is_always (networkMode config) && negb (isOnline h)).

(** [continueResolve(value)]: resolving the pause promise queues its
    [.then] reaction; resolving it again does nothing. *)
Definition continueResolve (s : State) : State :=
  match thread s with
  | Paused k => set_thread (PauseClosing k) s
  | _ => s
  end.

(** [continueFn?.()], with the body of the closure made by [pause]. *)
Definition callContinueFn (s : State) : State :=
  match continueFn s with
  | None => s
  | Some ContinueResolve =>
      if isResolved s || negb (shouldPause (host s))
      then continueResolve s
      else call (onPause config) CallOnPause s
  end.

Definition resolve (value : TData) (s : State) : State :=
  if isResolved s then s
  else
    let s := set_isResolved true s in
    let s := call (onSuccess config) (CallOnSuccess value) s in
    let s := callContinueFn s in
    emit (PromiseResolve value) s.

Definition reject (value : Failure) (s : State) : State :=
  if isResolved s then s
  else
    let s := set_isResolved true s in
    let s := call (onError config) (CallOnError value) s in
    let s := callContinueFn s in
    emit (PromiseReject value) s.

Definition cancel (cancelOptions : option CancelOptions) (s : State) : State :=
  if isResolved s then s
  else
    let s := reject (Cancellation (newCancelledError cancelOptions)) s in
    call (abort config) CallAbort s.

Definition cancelRetry (s : State) : State := set_isRetryCancelled true s.

Definition continueRetry (s : State) : State := set_isRetryCancelled false s.

(** [pause()]: the executor stores the closure in [continueFn]; the chain
    then waits for the pause promise, and goes on with [k]. *)
Definition pause (k : Resume) (s : State) : State :=
  set_thread (Paused k) (set_continueFn (Some ContinueResolve) s).

(** The [.then] reaction of [pause]. *)
Definition pauseThen (k : Resume) (s : State) : State :=
  let s := set_continueFn None s in
  let s := if isResolved s then s else call (onContinue config) CallOnContinue s in
  set_thread (Resuming k) s.

(** [run()], up to the point where the chain waits for the unit of work. *)
Definition run (s : State) : State :=
  if isResolved s then set_thread Idle s
  else
    let p := promiseOrValue (fn config (attempts (log s))) in
    set_thread (AwaitingFn p) (emit CallFn s).

(** [config.retry ?? 3] *)
Definition retryOf : RetryValue :=
  match retry config with Some r => r | None => RetryNumber 3 end.

(** [typeof retryDelay === "function" ? retryDelay(failureCount, error) :
    retryDelay], with [config.retryDelay ?? defaultRetryDelay]. *)
Definition delayOf (failureCount : Z) (error : TError) : Z :=
  match retryDelay config with
  | None => defaultRetryDelay failureCount
  | Some (DelayNumber ms) => ms
  | Some (DelayFunction f) => f failureCount error
  end.

(** [retry === true || (typeof retry === "number" && failureCount < retry)
    || (typeof retry === "function" && retry(failureCount, error))] *)
Definition shouldRetry (failureCount : Z) (error : TError) : bool :=
  match retryOf with
  | RetryBool b => b
  | RetryNumber n => failureCount <? n
  | RetryFunction f => f failureCount error
  end.

(** The [.catch] reaction of [run]. *)
Definition onRejected (error : TError) (s : State) : State :=
  if isResolved s then set_thread Idle s
  else
    let delay := delayOf (failureCount s) error in
    if isRetryCancelled s || negb (shouldRetry (failureCount s) error)
    then set_thread Idle (reject (WorkError error) s)
    else
      let s := set_failureCount (failureCount s + 1) s in
      let s := call (onFail config) (CallOnFail (failureCount s) error) s in
      set_thread (Sleeping error) (emit (CallSleep delay) s).

(** The first [.then] reaction of the sleep chain. *)
Definition afterSleep (error : TError) (s : State) : State :=
  if shouldPause (host s) then pause (ThenRetry error) s
  else set_thread (Resuming (ThenRetry error)) s.

(** The reaction that follows a closed pause or a delay without pause. *)
Definition resume (k : Resume) (s : State) : State :=
  match k with
  | ThenRun => run s
  | ThenRetry error =>
      if isRetryCancelled s then set_thread Idle (reject (WorkError error) s)
      else run s
  end.

(** The body of [CreateRetryer], in a host [h]. *)
Definition CreateRetryer (h : Host) : State :=
  let s := mkState false 0 false None Idle h [] in
  if canFetch h (networkMode config) then run s else pause ThenRun s.

(** What the host can deliver to a retryer. *)
Inductive Input :=
  | FnSettled
  | TimerFired
  | Microtask
  | Cancel (cancelOptions : option CancelOptions)
  | Continue
  | CancelRetry
  | ContinueRetry
  | VisibilityChange (v : option string)
  | OnlineChange (b : bool).

(** One event.  An event that the pending reaction does not wait for
    (a timer when no delay is running, say) cannot occur and leaves the
    state as it is. *)
Definition step (s : State) (i : Input) : State :=
  match i with
  | FnSettled =>
      match thread s with
      | AwaitingFn (Fulfilled v) => set_thread Idle (resolve v s)
      | AwaitingFn (Rejected e) => onRejected e s
      | _ => s
      end
  | TimerFired =>
      match thread s with
      | Sleeping e => afterSleep e s
      | _ => s
      end
  | Microtask =>
      match thread s with
      | PauseClosing k => pauseThen k s
      | Resuming k => resume k s
      | _ => s
      end
  | Cancel o => cancel o s
  | Continue => callContinueFn s
  | CancelRetry => cancelRetry s
  | ContinueRetry => continueRetry s
  | VisibilityChange v => set_host (mkHost v (isOnline (host s))) s
  | OnlineChange b => set_host (mkHost (visibilityState (host s)) b) s
  end.

Definition exec (s : State) (inputs : list Input) : State :=
  fold_left step inputs s.

End Engine.

End Retryer.

(** ** Predicates on states and runs *)

Section Predicates.

Context {TData TError : Type}.
Variable config : @RetryerConfig TData TError.

(** The result promise has been handed one outcome if [isResolved] is set
    and none otherwise; [config.abort] has run at most once, and only
    after settlement. *)
Definition settledOnce (s : @State TData TError) : Prop :=
  List.length (settlements (log s)) = (if isResolved s then 1 else 0)%nat /\
  (abortCalls (log s) <= (if isResolved s then 1 else 0))%nat.

(** [continueFn] holds a continuation exactly while a pause promise of the
    chain exists: open, or resolved with its reaction still queued. *)
Definition pauseOpen (t : @Thread TData TError) : bool :=
  match t with
  | Paused _ | PauseClosing _ => true
  | _ => false
  end.

Definition continuationInv (s : @State TData TError) : Prop :=
  continueFn s = if pauseOpen (thread s) then Some ContinueResolve else None.

(** The unit of work has not been invoked: the startup pause is open, or
    the retryer was settled before it closed. *)
Definition notStarted (s : @State TData TError) : Prop :=
  attempts (log s) = 0%nat /\
  (isResolved s = true \/
   (isResolved s = false /\ thread s = Paused ThenRun /\
    continueFn s = Some ContinueResolve)).

(** The chain is between the failure [e] of an attempt and the re-check
    of [isRetryCancelled]: in the delay, in a pause, or with a reaction
    queued; each of these still holds [e]. *)
Definition waitingRetry (e : TError) (t : @Thread TData TError) : Prop :=
  t = Sleeping e \/ t = Paused (ThenRetry e) \/
  t = PauseClosing (ThenRetry e) \/ t = Resuming (ThenRetry e).

(** One failed attempt, its delay and the re-check, with no pause. *)
Definition attemptCycle : list Input := [FnSettled; TimerFired; Microtask].

Fixpoint cycles (m : nat) : list Input :=
  match m with
  | O => []
  | S m' => attemptCycle ++ cycles m'
  end.

(** The host opens both gates. *)
Definition openGates : list Input := [VisibilityChange None; OnlineChange true].

(** A delay that ends with both gates open, and a delay that ends while
    the page is hidden, followed by a pause that [continue()] closes once
    the gates are open. *)
Definition plainWait : list Input := openGates ++ [TimerFired].

Definition pausedWait : list Input :=
  [VisibilityChange (Some "hidden"%string); TimerFired] ++ openGates
  ++ [Continue; Microtask].

(** The retry policy allows [n] retries, and the invocation number [k] of
    the unit of work fails with [err k]. *)
Variable n : nat.
Variable err : nat -> TError.

(** The calls of [onFail] after [fc] retry decisions. *)
Definition expectedFails (fc : nat) : list (Z * TError) :=
  map (fun k => (Z.of_nat (S k), err k)) (seq 0 fc).

(** Events that leave the loop to itself: no [cancel], and no
    [cancelRetry] unless the policy allows no retry at all. *)
Definition undisturbed (i : Input) : Prop :=
  match i with
  | Cancel _ => False
  | CancelRetry => n = 0%nat
  | _ => True
  end.

(** Where the loop stands after [fc] retry decisions. *)
Definition loopStage (fc : nat) (s : @State TData TError) : Prop :=
  match thread s with
  | Idle =>
      isResolved s = true /\ fc = n /\ attempts (log s) = S n /\
      settlements (log s) = [Failed (WorkError (err n))]
  | AwaitingFn p =>
      isResolved s = false /\ attempts (log s) = S fc /\
      p = Rejected (err fc) /\ settlements (log s) = []
  | Sleeping e | Paused (ThenRetry e) | PauseClosing (ThenRetry e)
  | Resuming (ThenRetry e) =>
      isResolved s = false /\ attempts (log s) = fc /\
      (exists j, fc = S j /\ e = err j) /\ settlements (log s) = []
  | Paused ThenRun | PauseClosing ThenRun | Resuming ThenRun =>
      isResolved s = false /\ attempts (log s) = 0%nat /\ fc = 0%nat /\
      settlements (log s) = []
  end.

Definition loopInv (s : @State TData TError) : Prop :=
  (isRetryCancelled s = false \/ n = 0%nat) /\
  exists fc : nat,
    failureCount s = Z.of_nat fc /\ (fc <= n)%nat /\
    onFailCalls (log s) = (if onFail config then expectedFails fc else []) /\
    loopStage fc s.

End Predicates.

(** ** Further readings of the log, and what the counters record *)

Section Counters.

Context {TData TError : Type}.
Variable config : @RetryerConfig TData TError.

(** The delays handed to [sleep], in order. *)
Fixpoint sleepDelays (l : list (@Event TData TError)) : list Z :=
  match l with
  | [] => []
  | CallSleep d :: l' => d :: sleepDelays l'
  | _ :: l' => sleepDelays l'
  end.

(** The calls of [onSuccess] and [onError], in order, as outcomes. *)
Fixpoint terminalCalls (l : list (@Event TData TError)) : list (@Outcome TData TError) :=
  match l with
  | [] => []
  | CallOnSuccess v :: l' => Success v :: terminalCalls l'
  | CallOnError e :: l' => Failed e :: terminalCalls l'
  | _ :: l' => terminalCalls l'
  end.

(** The hook that announces an outcome is present. *)
Definition notified (o : @Outcome TData TError) : bool :=
  match o with
  | Success _ => onSuccess config
  | Failed _ => onError config
  end.

(** The outcome is the rejection that [cancel] makes. *)
Definition madeByCancel (o : @Outcome TData TError) : bool :=
  match o with
  | Failed (Cancellation _) => true
  | _ => false
  end.

Definition isCancel (i : Input) : bool :=
  match i with Cancel _ => true | _ => false end.

Definition isContinue (i : Input) : bool :=
  match i with Continue => true | _ => false end.

(** The invocation number [k] of the unit of work fails with [e]. *)
Definition failedAt (k : nat) (e : TError) : Prop :=
  promiseOrValue (fn config k) = Rejected e.

(** The call of [onFail] that follows the failure number [k]. *)
Definition onFailAt (k : nat) (c : Z * TError) : Prop :=
  fst c = Z.of_nat (S k) /\ failedAt k (snd c).

(** The delay that follows the failure number [k]. *)
Definition sleepAt (k : nat) (d : Z) : Prop :=
  exists e, failedAt k e /\ d = delayOf config (Z.of_nat k) e.

(** How the number of invocations relates to the failure count [fc], by
    the reaction that is pending. *)
Definition countStage (fc : nat) (s : @State TData TError) : Prop :=
  match thread s with
  | Idle => (fc <= attempts (log s) <= S fc)%nat
  | AwaitingFn p =>
      attempts (log s) = S fc /\ p = promiseOrValue (fn config fc)
  | Sleeping e | Paused (ThenRetry e) | PauseClosing (ThenRetry e)
  | Resuming (ThenRetry e) =>
      attempts (log s) = fc /\ exists j, fc = S j /\ failedAt j e
  | Paused ThenRun | PauseClosing ThenRun | Resuming ThenRun =>
      attempts (log s) = 0%nat /\ fc = 0%nat
  end.

Definition countInv (s : @State TData TError) : Prop :=
  exists fc : nat,
    failureCount s = Z.of_nat fc /\
    Forall2 sleepAt (seq 0 fc) (sleepDelays (log s)) /\
    (if onFail config
     then Forall2 onFailAt (seq 0 fc) (onFailCalls (log s))
     else onFailCalls (log s) = []) /\
    countStage fc s.

(** The outcome [o] is what the invocation number [a - 1] of the unit of
    work produced, or it is a cancellation. *)
Definition producedByLast (a : nat) (o : @Outcome TData TError) : Prop :=
  match o with
  | Success data =>
      (1 <= a)%nat /\ promiseOrValue (fn config (a - 1)) = Fulfilled data
  | Failed (WorkError e) =>
      (1 <= a)%nat /\ promiseOrValue (fn config (a - 1)) = Rejected e
  | Failed (Cancellation _) => True
  end.

Definition lastInv (s : @State TData TError) : Prop :=
  Forall (producedByLast (attempts (log s))) (settlements (log s)).

(** The terminal hooks have announced exactly the outcomes handed to the
    promise, and [config.abort] has run once per rejection made by
    [cancel]. *)
Definition announcedInv (s : @State TData TError) : Prop :=
  terminalCalls (log s) = filter notified (settlements (log s)) /\
  abortCalls (log s) =
    (if abort config
     then List.length (filter madeByCancel (settlements (log s)))
     else 0%nat).

End Counters.

(** ** A unit of work that succeeds after some failures *)

Section SuccessPredicates.

Context {TData TError : Type}.
Variable config : @RetryerConfig TData TError.

(** Events that neither cancel the retryer nor cancel its retries. *)
Definition quietRetry (i : Input) : Prop :=
  match i with
  | Cancel _ | CancelRetry => False
  | _ => True
  end.

(** The invocations number 0 to [m - 1] fail, number [k] with [err k],
    and the invocation number [m] succeeds with [v]. *)
Variable m : nat.
Variable err : nat -> TError.
Variable v : TData.



(** With a policy that always retries and a unit of work that always
    fails, the loop never ends. *)
Definition foreverInv (s : @State TData TError) : Prop :=
  isResolved s = false /\ isRetryCancelled s = false /\
  match thread s with
  | Idle => False
  | AwaitingFn p => exists e, p = Rejected e
  | _ => True
  end.

End SuccessPredicates.

(** ** Control calls during the loop *)

Section ControlPredicates.

Context {TData TError : Type}.

(** Events that neither cancel the retryer nor resume its retries. *)
Definition noResume (i : Input) : Prop :=
  match i with
  | Cancel _ | ContinueRetry => False
  | _ => True
  end.

(** After [cancelRetry] during the wait that follows the failure [e]:
    the retries stay cancelled and the unit of work is not invoked again;
    the chain is still in the wait, or the re-check has rejected the
    promise with [e].  [a] and [st] are the number of invocations and the
    outcomes handed to the promise when [cancelRetry] was called. *)
Definition abandonedInv (e : TError) (a : nat) (st : list (@Outcome TData TError))
    (s : @State TData TError) : Prop :=
  isRetryCancelled s = true /\ attempts (log s) = a /\
  ((isResolved s = false /\ waitingRetry e (thread s) /\
    settlements (log s) = st) \/
   (isResolved s = true /\ thread s = Idle /\
    settlements (log s) = st ++ [Failed (WorkError e)])).

(** Every event but the next queued reaction of the chain. *)
Definition notMicrotask (i : Input) : Prop :=
  match i with
  | Microtask => False
  | _ => True
  end.

(** Events that leave the page as it is and do not cancel the retryer. *)
Definition pageUnchanged (i : Input) : Prop :=
  match i with
  | Cancel _ | VisibilityChange _ => False
  | _ => True
  end.

(** The calls of [onPause] made by the [continue()] calls among the
    events. *)
Definition pings (config : @RetryerConfig TData TError) (inputs : list Input)
  : list (@Event TData TError) :=
  if onPause config
  then repeat CallOnPause (List.length (filter isContinue inputs))
  else [].

(** The configuration with another unit of work. *)
Definition withFn (f : nat -> @FnBehaviour TData TError)
    (config : @RetryerConfig TData TError) : @RetryerConfig TData TError :=
  mkConfig f (abort config) (onError config) (onSuccess config) (onFail config)
           (onPause config) (onContinue config) (retry config) (retryDelay config)
           (networkMode config).

End ControlPredicates.

(** ** Concrete runs *)

Module Examples.

(** A unit of work over integers whose invocation number [k] rejects with
    the error [k]. *)
Definition alwaysFails (k : nat) : @FnBehaviour Z nat :=
  ReturnsPromise (Rejected k).

Definition allHooks (r : option (@RetryValue nat)) (m : option NetworkMode)
  : @RetryerConfig Z nat :=
  mkConfig alwaysFails true true true true true true r None m.

Definition visible : Host := mkHost (Some "visible"%string) true.
Definition hidden : Host := mkHost (Some "hidden"%string) true.
Definition offline : Host := mkHost (Some "visible"%string) false.

End Examples.

Module MoreExamples.

(** A unit of work that throws on its first two invocations and returns
    42 on the third. *)
Definition failsTwice (k : nat) : @FnBehaviour Z nat :=
  if (k <? 2)%nat then Throws k else Returns 42.

Definition flaky (r : option (@RetryValue nat)) : @RetryerConfig Z nat :=
  mkConfig failsTwice true true true true true true r None None.

(** The same, through promises. *)
Definition failsTwiceAsync (k : nat) : @FnBehaviour Z nat :=
  if (k <? 2)%nat then ReturnsPromise (Rejected k)
  else ReturnsPromise (Fulfilled 42).

End MoreExamples.

(** ** The pure functions *)

Unset Implicit Arguments.

Lemma defaultRetryDelay_small (n : Z) :
  0 <= n <= 4 -> defaultRetryDelay n = 1000 * 2 ^ n.
Proof.
  intros H. unfold defaultRetryDelay.
  assert (2 ^ n <= 2 ^ 4) by (apply Z.pow_le_mono_r; lia).
  change (2 ^ 4) with 16 in *. lia.
Qed.

Lemma defaultRetryDelay_capped (n : Z) :
  5 <= n -> defaultRetryDelay n = 30000.
Proof.
  intros H. unfold defaultRetryDelay.
  assert (2 ^ 5 <= 2 ^ n) by (apply Z.pow_le_mono_r; lia).
  change (2 ^ 5) with 32 in *. lia.
Qed.

Lemma defaultRetryDelay_mono (m n : Z) :
  0 <= m <= n -> defaultRetryDelay m <= defaultRetryDelay n.
Proof.
  intros H. unfold defaultRetryDelay.
  assert (2 ^ m <= 2 ^ n) by (apply Z.pow_le_mono_r; lia).
  lia.
Qed.

(** C7.  The default delay is [min (1000 * 2^failureCount) 30000] for
    every failure count that is a non-negative integer: it doubles from
    1000 up to failure count 4 and is 30000 from 5 on; it is 1000 at 0,
    16000 at 4 and 30000 at 10; it never decreases when the failure count
    grows, and never exceeds 30000. *)
Theorem defaultRetryDelay_backoff :
  forall m n : Z, 0 <= m -> m <= n ->
    defaultRetryDelay n = Z.min (1000 * 2 ^ n) 30000 /\
    (n <= 4 -> defaultRetryDelay n = 1000 * 2 ^ n) /\
    (5 <= n -> defaultRetryDelay n = 30000) /\
    defaultRetryDelay 0 = 1000 /\
    defaultRetryDelay 4 = 16000 /\
    defaultRetryDelay 10 = 30000 /\
    defaultRetryDelay m <= defaultRetryDelay n /\
    1000 <= defaultRetryDelay n <= 30000.
Proof.
  intros m n Hm Hmn.
  split; [reflexivity|].
  split; [intros; apply defaultRetryDelay_small; lia|].
  split; [apply defaultRetryDelay_capped|].
  repeat (split; [reflexivity|]).
  split; [apply defaultRetryDelay_mono; lia|].
  pose proof (defaultRetryDelay_mono 0 n ltac:(lia)) as H0.
  change (defaultRetryDelay 0) with 1000 in H0.
  unfold defaultRetryDelay in *. lia.
Qed.

Lemma defaultRetryDelay_backoff_witness :
  defaultRetryDelay 7 = Z.min (1000 * 2 ^ 7) 30000 /\
  (7 <= 4 -> defaultRetryDelay 7 = 1000 * 2 ^ 7) /\
  (5 <= 7 -> defaultRetryDelay 7 = 30000) /\
  defaultRetryDelay 0 = 1000 /\
  defaultRetryDelay 4 = 16000 /\
  defaultRetryDelay 10 = 30000 /\
  defaultRetryDelay 3 <= defaultRetryDelay 7 /\
  1000 <= defaultRetryDelay 7 <= 30000.
Proof.
  apply (defaultRetryDelay_backoff 3 7); lia.
Defined.

Section Gates.

Context {TData TError : Type}.
Variable config : @RetryerConfig TData TError.

(** C9.  [shouldPause] is true exactly when the attention gate reports
    not focused, or the mode is [always] and the online gate reports
    false; when the mode is [online], [offlineFirst] or left undefined,
    the online gate has no influence on it. *)
Theorem shouldPause_iff (h : Host) :
  (shouldPause config h = true <->
     isFocused h = false \/
     (networkMode config = Some always /\ isOnline h = false)) /\
  (networkMode config <> Some always ->
     forall v b b',
       shouldPause config (mkHost v b) = shouldPause config (mkHost v b') /\
       shouldPause config (mkHost v b) = negb (isFocused (mkHost v b))).
Proof.
  unfold shouldPause. split.
  - rewrite orb_true_iff, andb_true_iff, !negb_true_iff.
    split; (intros [H | [H1 H2]]; [left; exact H | right; split; [|exact H2]]).
    + destruct (networkMode config) as [[| |]|]; simpl in H1;
        try discriminate; reflexivity.
    + rewrite H1. reflexivity.
  - intros Hmode v b b'.
    assert (is_always (networkMode config) = false) as ->.
    { destruct (networkMode config) as [[| |]|]; try reflexivity.
      exfalso. apply Hmode. reflexivity. }
    simpl. rewrite !orb_false_r. split; reflexivity.
Qed.

Lemma shouldPause_open : shouldPause config (mkHost None true) = false.
Proof. unfold shouldPause. simpl. apply andb_false_r. Qed.

Lemma shouldPause_hidden (b : bool) :
  shouldPause config (mkHost (Some "hidden"%string) b) = true.
Proof. reflexivity. Qed.

End Gates.

Lemma shouldPause_iff_witness :
  networkMode (Examples.allHooks None (Some online)) <> Some always /\
  shouldPause (Examples.allHooks None (Some online)) (mkHost (Some "hidden"%string) true)
  = shouldPause (Examples.allHooks None (Some online)) (mkHost (Some "hidden"%string) false).
Proof.
  split; [discriminate|].
  exact (proj1 (proj2 (shouldPause_iff (Examples.allHooks None (Some online))
                         Examples.visible)
                 ltac:(discriminate) (Some "hidden"%string) true false)).
Defined.

(** ** Reading the log *)

Section LogFacts.

Context {TData TError : Type}.

#[local] Abbreviation Event := (@Event TData TError).

Lemma attempts_app (l1 l2 : list Event) :
  attempts (l1 ++ l2) = (attempts l1 + attempts l2)%nat.
Proof.
  induction l1 as [|[] l1 IH]; simpl; rewrite ?IH; reflexivity.
Qed.

Lemma onFailCalls_app (l1 l2 : list Event) :
  onFailCalls (l1 ++ l2) = onFailCalls l1 ++ onFailCalls l2.
Proof.
  induction l1 as [|[] l1 IH]; simpl; rewrite ?IH; reflexivity.
Qed.

Lemma onPauseCalls_app (l1 l2 : list Event) :
  onPauseCalls (l1 ++ l2) = (onPauseCalls l1 + onPauseCalls l2)%nat.
Proof.
  induction l1 as [|[] l1 IH]; simpl; rewrite ?IH; reflexivity.
Qed.

Lemma abortCalls_app (l1 l2 : list Event) :
  abortCalls (l1 ++ l2) = (abortCalls l1 + abortCalls l2)%nat.
Proof.
  induction l1 as [|[] l1 IH]; simpl; rewrite ?IH; reflexivity.
Qed.

Lemma settlements_app (l1 l2 : list Event) :
  settlements (l1 ++ l2) = settlements l1 ++ settlements l2.
Proof.
  induction l1 as [|[] l1 IH]; simpl; rewrite ?IH; reflexivity.
Qed.

End LogFacts.

Create Rewrite HintDb log_facts.

#[global] Hint Rewrite @attempts_app @onFailCalls_app @onPauseCalls_app
  @abortCalls_app @settlements_app : log_facts.

(** Unfolds the reactions of the engine down to the record. *)
Ltac engine_unfold :=
  unfold step, cancel, cancelRetry, continueRetry, onRejected, afterSleep,
    resume, pauseThen, pause, run, resolve, reject, callContinueFn,
    continueResolve, call, emit, set_isRetryCancelled, set_failureCount,
    set_isResolved, set_continueFn, set_thread, set_host in *;
  cbn [isRetryCancelled failureCount isResolved continueFn thread host log] in *.

(** Splits on the first test that the goal still branches on. *)
Ltac engine_case :=
  match goal with
  | |- context [match ?x with _ => _ end] =>
      lazymatch x with
      | context [match _ with _ => _ end] => fail
      | _ => first [is_var x; destruct x
                   | let E := fresh "E" in destruct x eqn:E]
      end;
      cbn [isRetryCancelled failureCount isResolved continueFn thread host log
           orb andb negb] in *;
      try discriminate
  end.

Ltac engine_cases := engine_unfold; repeat engine_case.

(** ** Settlement *)

Section Settlement.

Context {TData TError : Type}.
Variable config : @RetryerConfig TData TError.

#[local] Abbreviation State := (@State TData TError).

Lemma exec_app (s : State) (l1 l2 : list Input) :
  exec config s (l1 ++ l2) = exec config (exec config s l1) l2.
Proof. apply fold_left_app. Qed.

(** Once [isResolved] is set, no event changes the flag or adds to the
    log. *)
Lemma resolved_frozen (s : State) (i : Input) :
  isResolved s = true ->
  isResolved (step config s i) = true /\ log (step config s i) = log s.
Proof.
  intros H. destruct s as [rc fc r c t h l]. simpl in H. subst r.
  destruct i; engine_cases; auto.
Qed.

Lemma resolved_frozen_exec (inputs : list Input) (s : State) :
  isResolved s = true ->
  isResolved (exec config s inputs) = true /\ log (exec config s inputs) = log s.
Proof.
  revert s. induction inputs as [|i inputs IH]; intros s H; simpl; [auto|].
  destruct (resolved_frozen s i H) as [H1 H2].
  destruct (IH _ H1) as [H3 H4]. split; congruence.
Qed.

Lemma settledOnce_step (s : State) (i : Input) :
  settledOnce s -> settledOnce (step config s i).
Proof.
  unfold settledOnce. destruct (isResolved s) eqn:R.
  - destruct (resolved_frozen s i R) as [-> ->]. auto.
  - destruct s as [rc fc r c t h l]. simpl in R. subst r. simpl.
    intros [Hs Ha].
    destruct i; engine_cases;
      autorewrite with log_facts; rewrite ?List.length_app; simpl; lia.
Qed.

Lemma settledOnce_exec (inputs : list Input) (s : State) :
  settledOnce s -> settledOnce (exec config s inputs).
Proof.
  revert s. induction inputs as [|i inputs IH]; intros s H; simpl; [exact H|].
  apply IH, settledOnce_step, H.
Qed.

Lemma settledOnce_CreateRetryer (h : Host) :
  settledOnce (CreateRetryer config h).
Proof.
  unfold settledOnce, CreateRetryer.
  destruct (canFetch h (networkMode config)); simpl; lia.
Qed.

(** C1.  In every run of a retryer, whatever the order of completions
    and control calls: the result promise is handed at most one outcome,
    and exactly one if and only if [isResolved] is set; once the flag is
    set it stays set, [resolve], [reject] and [cancel] return without
    doing anything, and no later event (completion, [continue],
    [cancelRetry], [continueRetry] included) adds anything to the log, so
    the outcome of the promise is the one it had. *)
Theorem settles_at_most_once (h : Host) (inputs : list Input) :
  let s := exec config (CreateRetryer config h) inputs in
  (List.length (settlements (log s)) <= 1)%nat /\
  (isResolved s = true <-> List.length (settlements (log s)) = 1%nat) /\
  (forall (v : TData) (e : Failure) (o : option CancelOptions) (more : list Input),
     isResolved s = true ->
     resolve config v s = s /\
     reject config e s = s /\
     cancel config o s = s /\
     log (step config s Continue) = log s /\
     log (step config s CancelRetry) = log s /\
     log (step config s ContinueRetry) = log s /\
     isResolved (exec config s more) = true /\
     log (exec config s more) = log s /\
     settlements (log (exec config s more)) = settlements (log s)).
Proof.
  intros s.
  destruct (settledOnce_exec inputs _ (settledOnce_CreateRetryer h)) as [Hs _].
  fold s in Hs.
  split; [destruct (isResolved s); lia|].
  split; [destruct (isResolved s); split; intros; try reflexivity; try discriminate; lia|].
  intros v e o more R.
  destruct (resolved_frozen_exec more s R) as [R' L'].
  repeat split; try exact R';
    try (apply resolved_frozen; exact R);
    try exact L'; try (rewrite L'; reflexivity);
    unfold resolve, reject, cancel; rewrite R; reflexivity.
Qed.

End Settlement.

(** ** Cancellation *)

Section Cancellation.

Context {TData TError : Type}.
Variable config : @RetryerConfig TData TError.

#[local] Abbreviation State := (@State TData TError).

(** C3.  [cancel(options)] on a retryer that is not resolved, whatever
    the loop is waiting for: it calls [onError] if there is one, rejects
    the promise with a [CancelledError] that carries [options.revert] and
    [options.silent], sets [isResolved], and only then calls
    [config.abort] if there is one, once; a pause that is open is
    released.  On a resolved retryer it changes nothing.  Over a whole
    run [config.abort] is called at most once. *)
Theorem cancel_rejects_then_aborts (o : option CancelOptions) (s : State) :
  (isResolved s = false ->
     let c := newCancelledError o in
     log (cancel config o s) =
       log s ++ (if onError config then [CallOnError (Cancellation c)] else [])
             ++ [PromiseReject (Cancellation c)]
             ++ (if abort config then [CallAbort] else []) /\
     isResolved (cancel config o s) = true /\
     (forall opts, o = Some opts ->
        cancelled_revert c = revert opts /\ cancelled_silent c = silent opts) /\
     (o = None -> cancelled_revert c = None /\ cancelled_silent c = None) /\
     (forall e, thread s = Sleeping e -> thread (cancel config o s) = Sleeping e) /\
     (forall k, thread s = Paused k -> continueFn s = Some ContinueResolve ->
        thread (cancel config o s) = PauseClosing k)) /\
  (isResolved s = true -> cancel config o s = s) /\
  (forall h inputs,
     (abortCalls (log (exec config (CreateRetryer config h) inputs)) <= 1)%nat).
Proof.
  split; [|split].
  - intros R c. destruct s as [rc fc r cf t h l]. simpl in R. subst r.
    repeat split.
    + engine_cases; rewrite <- ?app_assoc; simpl; rewrite ?app_nil_r; reflexivity.
    + engine_cases; reflexivity.
    + subst o. reflexivity.
    + subst o. reflexivity.
    + subst o. reflexivity.
    + subst o. reflexivity.
    + intros e Ht. simpl in Ht. subst t. engine_cases; reflexivity.
    + intros k Ht Hc. simpl in Ht, Hc. subst t cf. engine_cases; reflexivity.
  - intros R. unfold cancel. rewrite R. reflexivity.
  - intros h inputs.
    destruct (settledOnce_exec config inputs _ (settledOnce_CreateRetryer config h))
      as [_ Ha].
    destruct (isResolved _); lia.
Qed.

(** [pause] stores the continuation and logs nothing: no hook runs when a
    pause is entered. *)
Lemma pause_silent (k : Resume) (s : State) :
  continueFn (pause k s) = Some ContinueResolve /\
  thread (pause k s) = Paused k /\
  log (pause k s) = log s.
Proof. destruct s. repeat split. Qed.

(** The only caller of [onPause] is the stored continuation, when it is
    invoked on a retryer that is not resolved and must stay paused. *)
Lemma continueFn_calls_onPause (s : State) :
  continueFn s = Some ContinueResolve ->
  isResolved s = false ->
  shouldPause config (host s) = true ->
  step config s Continue = call (onPause config) CallOnPause s.
Proof.
  destruct s as [rc fc r c t h l]. simpl. intros -> -> P.
  unfold callContinueFn. simpl. rewrite P. reflexivity.
Qed.

End Cancellation.

Lemma cancel_rejects_then_aborts_witness :
  let cfg := Examples.allHooks None None in
  let o := Some (mkCancelOptions (Some true) (Some false)) in
  let s := exec cfg (CreateRetryer cfg Examples.visible) [FnSettled] in
  let c := mkCancelledError (Some true) (Some false) in
  thread s = Sleeping 0%nat /\
  log (cancel cfg o s) =
    log s ++ [CallOnError (Cancellation c); PromiseReject (Cancellation c); CallAbort].
Proof.
  split; [reflexivity|].
  exact (proj1 (proj1 (cancel_rejects_then_aborts (Examples.allHooks None None)
                  (Some (mkCancelOptions (Some true) (Some false)))
                  (exec (Examples.allHooks None None)
                     (CreateRetryer (Examples.allHooks None None) Examples.visible)
                     [FnSettled]))
                eq_refl)).
Defined.

(** C4 (the code departs from it).  A retryer created with an [onPause]
    hook while the online gate is closed enters a pause: the continuation
    is stored in [continueFn], but the log is empty, so [onPause] has not
    been called.  The hook runs only when [continue()] is called later and
    the retryer must stay paused. *)
Theorem pause_entered_without_onPause :
  let cfg := Examples.allHooks None (Some online) in
  let s := CreateRetryer cfg Examples.offline in
  onPause cfg = true /\
  thread s = Paused ThenRun /\
  continueFn s = Some ContinueResolve /\
  onPauseCalls (log s) = 0%nat /\
  log s = [] /\
  log (exec cfg s [VisibilityChange (Some "hidden"%string); Continue]) = [CallOnPause].
Proof. repeat split. Qed.

(** ** Startup *)

Section Startup.

Context {TData TError : Type}.
Variable config : @RetryerConfig TData TError.

#[local] Abbreviation State := (@State TData TError).

Lemma CreateRetryer_runs (h : Host) :
  canFetch h (networkMode config) = true ->
  CreateRetryer config h =
    mkState false 0 false None (AwaitingFn (promiseOrValue (fn config 0))) h [CallFn].
Proof. intros H. unfold CreateRetryer. rewrite H. reflexivity. Qed.

Lemma CreateRetryer_pauses (h : Host) :
  canFetch h (networkMode config) = false ->
  CreateRetryer config h =
    mkState false 0 false (Some ContinueResolve) (Paused ThenRun) h [].
Proof. intros H. unfold CreateRetryer. rewrite H. reflexivity. Qed.

(** C10.  With mode [always] or [offlineFirst], [canFetch] is true
    whatever the online gate reports, and construction invokes the unit of
    work at once, also when the gate reports false.  With mode [online],
    or with no mode given, [canFetch] is the answer of the gate:
    construction invokes the unit of work when it is true and opens a
    pause, without any invocation, when it is false. *)
Theorem canFetch_consults_gate_only_online (h : Host) :
  (networkMode config = Some always \/ networkMode config = Some offlineFirst ->
     canFetch h (networkMode config) = true /\
     log (CreateRetryer config h) = [CallFn] /\
     thread (CreateRetryer config h) = AwaitingFn (promiseOrValue (fn config 0))) /\
  (networkMode config = Some online \/ networkMode config = None ->
     canFetch h (networkMode config) = isOnline h /\
     (isOnline h = true ->
        log (CreateRetryer config h) = [CallFn] /\
        thread (CreateRetryer config h) = AwaitingFn (promiseOrValue (fn config 0))) /\
     (isOnline h = false ->
        log (CreateRetryer config h) = [] /\
        thread (CreateRetryer config h) = Paused ThenRun)).
Proof.
  split.
  - intros Hm.
    assert (canFetch h (networkMode config) = true) as C
      by (destruct Hm as [-> | ->]; reflexivity).
    rewrite (CreateRetryer_runs h C). auto.
  - intros Hm.
    assert (canFetch h (networkMode config) = isOnline h) as C
      by (destruct Hm as [-> | ->]; reflexivity).
    split; [exact C|]. split; intros Ho; rewrite Ho in C.
    + rewrite (CreateRetryer_runs h C). auto.
    + rewrite (CreateRetryer_pauses h C). auto.
Qed.

Lemma continuationInv_step (s : State) (i : Input) :
  continuationInv s -> continuationInv (step config s i).
Proof.
  unfold continuationInv. destruct s as [rc fc r c t h l]. simpl. intros ->.
  destruct i; engine_cases; reflexivity.
Qed.

Lemma continuationInv_exec (inputs : list Input) (s : State) :
  continuationInv s -> continuationInv (exec config s inputs).
Proof.
  revert s. induction inputs as [|i inputs IH]; intros s H; simpl; [exact H|].
  apply IH, continuationInv_step, H.
Qed.

Lemma continuationInv_CreateRetryer (h : Host) :
  continuationInv (CreateRetryer config h).
Proof.
  unfold continuationInv, CreateRetryer.
  destruct (canFetch h (networkMode config)); reflexivity.
Qed.

Lemma notStarted_step (s : State) (i : Input) :
  notStarted s ->
  notStarted (step config s i) \/
  (i = Continue /\ thread s = Paused ThenRun /\ isResolved s = false /\
   shouldPause config (host s) = false).
Proof.
  intros [Ha [R | (R & T & C)]].
  - left. destruct (resolved_frozen config s i R) as [R' L'].
    split; [rewrite L'; exact Ha | left; exact R'].
  - destruct s as [rc fc r c t h l]. simpl in *. subst r t c.
    destruct i;
      try (left; split; engine_cases; autorewrite with log_facts;
           simpl; rewrite ?Ha; auto; fail).
    destruct (shouldPause config h) eqn:P.
    + left. split; engine_unfold; rewrite P; simpl; repeat engine_case;
        autorewrite with log_facts; simpl; rewrite ?Ha; auto.
    + right. auto.
Qed.

Lemma notStarted_until_continue (inputs : list Input) (s : State) :
  notStarted s ->
  (0 < attempts (log (exec config s inputs)))%nat ->
  exists pre post,
    inputs = pre ++ Continue :: post /\
    thread (exec config s pre) = Paused ThenRun /\
    isResolved (exec config s pre) = false /\
    shouldPause config (host (exec config s pre)) = false /\
    attempts (log (exec config s pre)) = 0%nat.
Proof.
  revert s. induction inputs as [|i inputs IH]; intros s N Hpos.
  - destruct N as [Ha _]. simpl in Hpos. lia.
  - destruct (notStarted_step s i N) as [N' | (-> & T & R & P)].
    + destruct (IH _ N' Hpos) as (pre & post & -> & H).
      exists (i :: pre), post. split; [reflexivity | exact H].
    + exists [], inputs. destruct N as [Ha _]. simpl. auto.
Qed.

Lemma startup_resumes (s : State) :
  thread s = Paused ThenRun ->
  continueFn s = Some ContinueResolve ->
  isResolved s = false ->
  shouldPause config (host s) = false ->
  log (exec config s [Continue; Microtask; Microtask]) =
    log s ++ (if onContinue config then [CallOnContinue] else []) ++ [CallFn] /\
  thread (exec config s [Continue; Microtask; Microtask]) =
    AwaitingFn (promiseOrValue
      (fn config (attempts (log s ++ if onContinue config then [CallOnContinue] else [])))).
Proof.
  destruct s as [rc fc r c t h l]. cbn [thread continueFn isResolved host log].
  intros -> -> -> P.
  assert (step config (mkState rc fc false (Some ContinueResolve) (Paused ThenRun) h l)
            Continue
          = mkState rc fc false (Some ContinueResolve) (PauseClosing ThenRun) h l) as E.
  { cbn [step]. unfold callContinueFn.
    cbn [continueFn isResolved host orb]. rewrite P. reflexivity. }
  unfold exec. cbn [fold_left]. rewrite E.
  cbn [step thread]. unfold pauseThen, set_continueFn, set_thread, call.
  cbn [isRetryCancelled failureCount isResolved continueFn thread host log].
  cbn [step thread resume]. unfold run, set_thread, emit.
  cbn [isRetryCancelled failureCount isResolved continueFn thread host log].
  rewrite <- app_assoc. split; reflexivity.
Qed.

Lemma canFetch_true_iff (h : Host) (networkMode : option NetworkMode) :
  canFetch h networkMode = true <->
  isOnline h = true \/ networkMode = Some always \/ networkMode = Some offlineFirst.
Proof.
  destruct networkMode as [[]|]; simpl; split; auto;
    intros [H | [H | H]]; auto; discriminate.
Qed.

(** C6, as amended.  Construction invokes the unit of work at once exactly
    when [canFetch] holds, that is when the online gate reports true or
    the mode is [always] or [offlineFirst], whatever the gate reports.
    Only with the gate reporting false under mode [online] (or no mode)
    the retryer opens a pause and invokes nothing; in any run from there,
    an invocation of the unit of work is preceded by a call of
    [continue()] made while the startup pause was open, the retryer
    unresolved and [shouldPause()] false; from any such moment
    [continue()] followed by the two queued reactions does invoke the
    unit of work; and [shouldPause()] is the negation of the attention
    gate. *)
Theorem startup_policy (h : Host) :
  (canFetch h (networkMode config) = true <->
     isOnline h = true \/
     networkMode config = Some always \/ networkMode config = Some offlineFirst) /\
  (isOnline h = true \/
   networkMode config = Some always \/ networkMode config = Some offlineFirst ->
     log (CreateRetryer config h) = [CallFn] /\
     thread (CreateRetryer config h) = AwaitingFn (promiseOrValue (fn config 0))) /\
  (isOnline h = false ->
   networkMode config = Some online \/ networkMode config = None ->
     let s0 := CreateRetryer config h in
     canFetch h (networkMode config) = false /\
     log s0 = [] /\ thread s0 = Paused ThenRun /\
     continueFn s0 = Some ContinueResolve /\
     (forall inputs,
        (0 < attempts (log (exec config s0 inputs)))%nat ->
        exists pre post,
          inputs = pre ++ Continue :: post /\
          thread (exec config s0 pre) = Paused ThenRun /\
          isResolved (exec config s0 pre) = false /\
          shouldPause config (host (exec config s0 pre)) = false /\
          attempts (log (exec config s0 pre)) = 0%nat) /\
     (forall pre,
        thread (exec config s0 pre) = Paused ThenRun ->
        isResolved (exec config s0 pre) = false ->
        shouldPause config (host (exec config s0 pre)) = false ->
        log (exec config s0 (pre ++ [Continue; Microtask; Microtask])) =
          log (exec config s0 pre)
            ++ (if onContinue config then [CallOnContinue] else []) ++ [CallFn]) /\
     (forall h', shouldPause config h' = negb (isFocused h'))).
Proof.
  split; [apply canFetch_true_iff|]. split.
  - intros Hc. apply canFetch_true_iff in Hc.
    rewrite (CreateRetryer_runs h Hc). auto.
  - intros Ho Hm s0.
    assert (canFetch h (networkMode config) = false) as C
      by (destruct Hm as [-> | ->]; exact Ho).
    assert (notStarted s0) as N.
    { subst s0. rewrite (CreateRetryer_pauses h C). split; simpl; auto. }
    subst s0. split; [exact C|].
    split; [|split; [|split; [|split; [|split]]]];
      try (rewrite (CreateRetryer_pauses h C); reflexivity).
    + intros inputs. apply notStarted_until_continue, N.
    + intros pre T R P. rewrite exec_app.
      pose proof (continuationInv_exec pre _ (continuationInv_CreateRetryer h)) as I.
      unfold continuationInv in I. rewrite T in I.
      exact (proj1 (startup_resumes _ T I R P)).
    + intros h'. unfold shouldPause.
      destruct Hm as [-> | ->]; simpl; apply orb_false_r.
Qed.

End Startup.

Lemma canFetch_consults_gate_only_online_witness :
  canFetch Examples.offline (Some always) = true /\
  log (CreateRetryer (Examples.allHooks None (Some always)) Examples.offline) = [CallFn] /\
  thread (CreateRetryer (Examples.allHooks None (Some always)) Examples.offline)
  = AwaitingFn (Rejected 0%nat).
Proof.
  apply (proj1 (canFetch_consults_gate_only_online
                  (Examples.allHooks None (Some always)) Examples.offline)).
  left. reflexivity.
Defined.

(** C6 as the specification words it fails under mode [always]: with the
    online gate reporting false at construction, the unit of work is
    invoked at once and no pause is opened. *)
Lemma startup_pause_counterexample :
  isOnline Examples.offline = false /\
  log (CreateRetryer (Examples.allHooks None (Some always)) Examples.offline)
    = [CallFn] /\
  attempts (log (CreateRetryer (Examples.allHooks None (Some always))
                               Examples.offline)) = 1%nat /\
  continueFn (CreateRetryer (Examples.allHooks None (Some always)) Examples.offline)
    = None /\
  ~ (isOnline Examples.offline = false ->
     attempts (log (CreateRetryer (Examples.allHooks None (Some always))
                                  Examples.offline)) = 0%nat /\
     thread (CreateRetryer (Examples.allHooks None (Some always)) Examples.offline)
       = Paused ThenRun).
Proof.
  split; [reflexivity|]. split; [reflexivity|]. split; [reflexivity|].
  split; [reflexivity|].
  intros H. destruct (H eq_refl) as [A _]. discriminate A.
Qed.

Lemma startup_policy_witness :
  let cfg := Examples.allHooks None (Some online) in
  let s0 := CreateRetryer cfg Examples.offline in
  log s0 = [] /\ thread s0 = Paused ThenRun /\
  log (exec cfg s0 [OnlineChange true; Continue; Microtask; Microtask])
  = [CallOnContinue; CallFn] /\
  log (CreateRetryer (Examples.allHooks None (Some offlineFirst)) Examples.offline)
  = [CallFn].
Proof.
  destruct (proj2 (proj2 (startup_policy (Examples.allHooks None (Some online))
                            Examples.offline))
              eq_refl (or_introl eq_refl))
    as (_ & L & T & _ & _ & Live & _).
  split; [exact L|]. split; [exact T|].
  split; [exact (Live [OnlineChange true] eq_refl eq_refl eq_refl)|].
  exact (proj1 (proj1 (proj2 (startup_policy
                                (Examples.allHooks None (Some offlineFirst))
                                Examples.offline))
                  (or_intror (or_intror eq_refl)))).
Defined.

(** ** The wait between a failed attempt and the next one *)

Section RetryWait.

Context {TData TError : Type}.
Variable config : @RetryerConfig TData TError.

#[local] Abbreviation State := (@State TData TError).

Lemma waitingRetry_step (e : TError) (s : State) (i : Input) :
  waitingRetry e (thread s) ->
  (waitingRetry e (thread (step config s i)) /\
   attempts (log (step config s i)) = attempts (log s)) \/
  (i = Microtask /\ thread s = Resuming (ThenRetry e)).
Proof.
  unfold waitingRetry. destruct s as [rc fc r c t h l]. simpl.
  intros [-> | [-> | [-> | ->]]]; destruct i;
    try (right; split; reflexivity);
    left; engine_cases; autorewrite with log_facts; simpl;
    rewrite ?Nat.add_0_r; auto 6.
Qed.

Lemma waitingRetry_exec (e : TError) (inputs : list Input) (s : State) :
  waitingRetry e (thread s) ->
  (waitingRetry e (thread (exec config s inputs)) /\
   attempts (log (exec config s inputs)) = attempts (log s)) \/
  exists pre post,
    inputs = pre ++ Microtask :: post /\
    thread (exec config s pre) = Resuming (ThenRetry e) /\
    attempts (log (exec config s pre)) = attempts (log s) /\
    exec config s inputs = exec config (step config (exec config s pre) Microtask) post.
Proof.
  revert s. induction inputs as [|i inputs IH]; intros s W.
  - left. simpl. auto.
  - destruct (waitingRetry_step e s i W) as [[W' A'] | [-> T]].
    + destruct (IH _ W') as [[W'' A''] | (pre & post & -> & T & A & E)].
      * left. simpl. split; [exact W'' | congruence].
      * right. exists (i :: pre), post. simpl. repeat split; auto; congruence.
    + right. exists [], inputs. simpl. auto.
Qed.

Lemma onRejected_retries (e : TError) (s : State) :
  thread s = AwaitingFn (Rejected e) ->
  isResolved s = false ->
  isRetryCancelled s = false ->
  shouldRetry config (failureCount s) e = true ->
  thread (step config s FnSettled) = Sleeping e /\
  failureCount (step config s FnSettled) = failureCount s + 1 /\
  isResolved (step config s FnSettled) = false /\
  log (step config s FnSettled) =
    log s ++ (if onFail config then [CallOnFail (failureCount s + 1) e] else [])
          ++ [CallSleep (delayOf config (failureCount s) e)].
Proof.
  destruct s as [rc fc r c t h l]. simpl. intros -> -> -> Hr.
  engine_unfold. rewrite Hr. simpl. engine_cases;
    rewrite <- ?app_assoc; auto.
Qed.

Lemma recheck_after_wait (e : TError) (s : State) :
  thread s = Resuming (ThenRetry e) ->
  (isResolved s = false -> isRetryCancelled s = true ->
     log (step config s Microtask) =
       log s ++ (if onError config then [CallOnError (WorkError e)] else [])
             ++ [PromiseReject (WorkError e)] /\
     isResolved (step config s Microtask) = true /\
     thread (step config s Microtask) = Idle) /\
  (isResolved s = false -> isRetryCancelled s = false ->
     log (step config s Microtask) = log s ++ [CallFn] /\
     thread (step config s Microtask) =
       AwaitingFn (promiseOrValue (fn config (attempts (log s))))) /\
  (isResolved s = true -> log (step config s Microtask) = log s).
Proof.
  destruct s as [rc fc r c t h l]. simpl. intros ->.
  repeat split; intros; subst; engine_cases;
    rewrite <- ?app_assoc; auto.
Qed.

Lemma retry_wait_can_end (e : TError) (s : State) :
  thread s = Sleeping e ->
  isResolved s = false ->
  thread (exec config s plainWait) = Resuming (ThenRetry e) /\
  thread (exec config s pausedWait) = Resuming (ThenRetry e).
Proof.
  destruct s as [rc fc r c t h l]. simpl. intros -> ->. split.
  - simpl. unfold afterSleep. simpl. rewrite (shouldPause_open config).
    reflexivity.
  - simpl. unfold callContinueFn. simpl. rewrite (shouldPause_open config).
    reflexivity.
Qed.

(** What the re-check does at the end of the four waits: a plain delay or
    a delay followed by a pause, with the retries left alone or cancelled
    just before the re-check. *)
Lemma retry_wait_outcomes (e : TError) (s : State) :
  thread s = Sleeping e ->
  isResolved s = false ->
  isRetryCancelled s = false ->
  (log (exec config s (plainWait ++ [Microtask])) = log s ++ [CallFn] /\
   thread (exec config s (plainWait ++ [Microtask])) =
     AwaitingFn (promiseOrValue (fn config (attempts (log s))))) /\
  (log (exec config s (plainWait ++ [CancelRetry; Microtask])) =
     log s ++ (if onError config then [CallOnError (WorkError e)] else [])
           ++ [PromiseReject (WorkError e)] /\
   isResolved (exec config s (plainWait ++ [CancelRetry; Microtask])) = true) /\
  (log (exec config s (pausedWait ++ [Microtask])) =
     log s ++ (if onContinue config then [CallOnContinue] else []) ++ [CallFn] /\
   thread (exec config s (pausedWait ++ [Microtask])) =
     AwaitingFn (promiseOrValue (fn config (attempts (log s))))) /\
  (log (exec config s (pausedWait ++ [CancelRetry; Microtask])) =
     log s ++ (if onContinue config then [CallOnContinue] else [])
           ++ (if onError config then [CallOnError (WorkError e)] else [])
           ++ [PromiseReject (WorkError e)] /\
   isResolved (exec config s (pausedWait ++ [CancelRetry; Microtask])) = true).
Proof.
  destruct s as [rc fc r c t h l]. simpl. intros -> -> ->.
  assert (attempts (if onContinue config then [@CallOnContinue TData TError] else [])
          = 0%nat) as A0 by (destruct (onContinue config); reflexivity).
  split; [|split; [|split]].
  - simpl. unfold afterSleep. simpl. rewrite (shouldPause_open config). simpl.
    split; reflexivity.
  - simpl. unfold afterSleep. simpl. rewrite (shouldPause_open config). simpl.
    unfold reject. simpl. unfold callContinueFn. simpl.
    destruct c as [[]|]; simpl; rewrite <- app_assoc; split; reflexivity.
  - simpl. unfold callContinueFn. simpl. rewrite (shouldPause_open config). simpl.
    rewrite attempts_app, A0, Nat.add_0_r, <- app_assoc. split; reflexivity.
  - simpl. unfold callContinueFn. simpl. rewrite (shouldPause_open config). simpl.
    unfold reject. simpl. unfold callContinueFn. simpl.
    rewrite <- !app_assoc. split; reflexivity.
Qed.

(** C5.  An attempt fails with [e] and the engine decides to retry.  From
    then on, in any run, the chain holds [e] through the delay and
    through a pause, without invoking the unit of work, and leaves that
    wait only by the reaction that re-checks [isRetryCancelled].  At that
    reaction, in whatever state the chain reaches it: if the flag is set
    then (the retryer being unresolved) the promise is rejected with [e]
    itself, after [onError] if there is one, and the unit of work is not
    invoked; if the flag is clear the unit of work is invoked again; on a
    retryer resolved in the meantime nothing happens.  The re-check is
    reached after a plain delay and after a delay followed by a pause,
    and in each case it re-invokes the unit of work when the retries were
    left alone and rejects with [e] when [cancelRetry] came first. *)
Theorem recheck_rejects_with_original_error
    (e : TError) (s : State) (inputs : list Input) :
  thread s = AwaitingFn (Rejected e) ->
  isResolved s = false ->
  isRetryCancelled s = false ->
  shouldRetry config (failureCount s) e = true ->
  let s1 := step config s FnSettled in
  thread s1 = Sleeping e /\
  thread (exec config s1 plainWait) = Resuming (ThenRetry e) /\
  thread (exec config s1 pausedWait) = Resuming (ThenRetry e) /\
  (forall sB : State,
     thread sB = Resuming (ThenRetry e) ->
     (isResolved sB = false -> isRetryCancelled sB = true ->
        log (step config sB Microtask) =
          log sB ++ (if onError config then [CallOnError (WorkError e)] else [])
                 ++ [PromiseReject (WorkError e)] /\
        attempts (log (step config sB Microtask)) = attempts (log sB) /\
        isResolved (step config sB Microtask) = true /\
        thread (step config sB Microtask) = Idle) /\
     (isResolved sB = false -> isRetryCancelled sB = false ->
        log (step config sB Microtask) = log sB ++ [CallFn] /\
        attempts (log (step config sB Microtask)) = S (attempts (log sB)) /\
        thread (step config sB Microtask) =
          AwaitingFn (promiseOrValue (fn config (attempts (log sB))))) /\
     (isResolved sB = true -> log (step config sB Microtask) = log sB)) /\
  (log (exec config s1 (plainWait ++ [Microtask])) = log s1 ++ [CallFn] /\
   thread (exec config s1 (plainWait ++ [Microtask])) =
     AwaitingFn (promiseOrValue (fn config (attempts (log s1))))) /\
  (log (exec config s1 (plainWait ++ [CancelRetry; Microtask])) =
     log s1 ++ (if onError config then [CallOnError (WorkError e)] else [])
            ++ [PromiseReject (WorkError e)] /\
   isResolved (exec config s1 (plainWait ++ [CancelRetry; Microtask])) = true) /\
  (log (exec config s1 (pausedWait ++ [Microtask])) =
     log s1 ++ (if onContinue config then [CallOnContinue] else []) ++ [CallFn] /\
   thread (exec config s1 (pausedWait ++ [Microtask])) =
     AwaitingFn (promiseOrValue (fn config (attempts (log s1))))) /\
  (log (exec config s1 (pausedWait ++ [CancelRetry; Microtask])) =
     log s1 ++ (if onContinue config then [CallOnContinue] else [])
            ++ (if onError config then [CallOnError (WorkError e)] else [])
            ++ [PromiseReject (WorkError e)] /\
   isResolved (exec config s1 (pausedWait ++ [CancelRetry; Microtask])) = true) /\
  ((waitingRetry e (thread (exec config s1 inputs)) /\
    attempts (log (exec config s1 inputs)) = attempts (log s1)) \/
   exists pre post,
     inputs = pre ++ Microtask :: post /\
     let sB := exec config s1 pre in
     thread sB = Resuming (ThenRetry e) /\
     attempts (log sB) = attempts (log s1) /\
     exec config s1 inputs = exec config (step config sB Microtask) post /\
     (isResolved sB = false -> isRetryCancelled sB = true ->
        log (step config sB Microtask) =
          log sB ++ (if onError config then [CallOnError (WorkError e)] else [])
                 ++ [PromiseReject (WorkError e)] /\
        isResolved (step config sB Microtask) = true /\
        thread (step config sB Microtask) = Idle) /\
     (isResolved sB = false -> isRetryCancelled sB = false ->
        log (step config sB Microtask) = log sB ++ [CallFn] /\
        thread (step config sB Microtask) =
          AwaitingFn (promiseOrValue (fn config (attempts (log sB))))) /\
     (isResolved sB = true -> log (step config sB Microtask) = log sB)).
Proof.
  intros T R C S s1.
  destruct (onRejected_retries e s T R C S) as (T1 & _ & R1 & _).
  assert (isRetryCancelled s1 = false) as C1.
  { subst s1. destruct s as [rc fc r c t h l]. simpl in T, R, C, S. subst t r rc.
    simpl. unfold onRejected. simpl. rewrite S. reflexivity. }
  split; [exact T1|].
  destruct (retry_wait_can_end e s1 T1 R1) as [W1 W2].
  split; [exact W1|]. split; [exact W2|].
  split.
  { intros sB TB. destruct (recheck_after_wait e sB TB) as (K1 & K2 & K3).
    split; [|split; [|exact K3]].
    - intros RB CB. destruct (K1 RB CB) as (L & RB' & TB').
      split; [exact L|]. split; [|split; [exact RB' | exact TB']].
      rewrite L, !attempts_app. simpl.
      destruct (onError config); simpl; lia.
    - intros RB CB. destruct (K2 RB CB) as (L & TB').
      split; [exact L|]. split; [|exact TB'].
      rewrite L, attempts_app. simpl. lia. }
  destruct (retry_wait_outcomes e s1 T1 R1 C1) as (O1 & O2 & O3 & O4).
  split; [exact O1|]. split; [exact O2|]. split; [exact O3|]. split; [exact O4|].
  destruct (waitingRetry_exec e inputs s1 (or_introl T1))
    as [W | (pre & post & E & TB & A & X)].
  - left. exact W.
  - right. exists pre, post. split; [exact E|]. cbv zeta.
    split; [exact TB|]. split; [exact A|]. split; [exact X|].
    exact (recheck_after_wait e _ TB).
Qed.

End RetryWait.

Lemma recheck_rejects_with_original_error_witness :
  let cfg := Examples.allHooks None None in
  let s := CreateRetryer cfg Examples.visible in
  let s1 := step cfg s FnSettled in
  thread s = AwaitingFn (Rejected 0%nat) /\
  log (exec cfg s1 (pausedWait ++ [CancelRetry; Microtask])) =
    [CallFn; CallOnFail 1 0%nat; CallSleep 1000; CallOnContinue;
     CallOnError (WorkError 0%nat); PromiseReject (WorkError 0%nat)] /\
  log (exec cfg s1 (pausedWait ++ [Microtask])) =
    [CallFn; CallOnFail 1 0%nat; CallSleep 1000; CallOnContinue; CallFn] /\
  thread (exec cfg s1 (pausedWait ++ [Microtask])) = AwaitingFn (Rejected 1%nat).
Proof.
  split; [reflexivity|].
  destruct (recheck_rejects_with_original_error (Examples.allHooks None None)
              0%nat (CreateRetryer (Examples.allHooks None None) Examples.visible)
              [] eq_refl eq_refl eq_refl eq_refl)
    as (_ & _ & _ & _ & _ & _ & (L3 & T3) & (L4 & _) & _).
  split; [exact L4|]. split; [exact L3 | exact T3].
Defined.

(** ** A unit of work that always fails, under a retry count *)

Section RetryLoop.

Context {TData TError : Type}.
Variable config : @RetryerConfig TData TError.

#[local] Abbreviation State := (@State TData TError).

(** The retry policy allows [n] retries, and the invocation number [k] of
    the unit of work fails with [err k]. *)
Variable n : nat.
Variable err : nat -> TError.
Hypothesis retry_count :
  forall (fc : nat) (e : TError), shouldRetry config (Z.of_nat fc) e = (fc <? n)%nat.
Hypothesis always_fails :
  forall k, promiseOrValue (fn config k) = Rejected (err k).

Lemma expectedFails_S (fc : nat) :
  expectedFails err (S fc) = expectedFails err fc ++ [(Z.of_nat fc + 1, err fc)].
Proof.
  unfold expectedFails. rewrite seq_S, map_app. simpl.
  rewrite Zpos_P_of_succ_nat. reflexivity.
Qed.

Lemma loopInv_CreateRetryer (h : Host) : loopInv config n err (CreateRetryer config h).
Proof.
  unfold CreateRetryer, loopInv.
  destruct (canFetch h (networkMode config)); simpl;
    (split; [left; reflexivity|]); exists 0%nat; unfold loopStage; simpl;
    rewrite ?always_fails; destruct (onFail config); repeat split; lia.
Qed.

Ltac loop_log :=
  autorewrite with log_facts; simpl; rewrite ?app_nil_r, ?Nat.add_0_r, ?Nat.add_1_r.

(** Closes the cases in which the event leaves the stage of the loop as
    it is. *)
Ltac loop_same RC fc :=
  unfold loopInv, loopStage; engine_cases;
  (split; [exact RC|]); exists fc; loop_log; auto.

Lemma loopInv_step (s : State) (i : Input) :
  undisturbed n i -> loopInv config n err s -> loopInv config n err (step config s i).
Proof.
  intros U [RC (fc & F & Le & OF & St)].
  destruct s as [rc f r c t h l]. simpl in RC, F, OF. subst f.
  unfold loopStage in St. simpl in St.
  destruct i; simpl in U; try contradiction.
  - (* FnSettled *)
    destruct t as [|p| | | |]; try (loop_same RC fc; fail).
    destruct St as (-> & A & -> & Hs). simpl.
    unfold onRejected. simpl. rewrite retry_count.
    destruct (fc <? n)%nat eqn:Lt.
    + apply Nat.ltb_lt in Lt.
      assert (rc = false) as -> by (destruct RC; [assumption | lia]).
      unfold loopInv, loopStage. simpl. split; [left; reflexivity|].
      exists (S fc). split; [lia|]. split; [lia|]. loop_log. split.
      * rewrite OF. destruct (onFail config); simpl;
          rewrite ?expectedFails_S, ?app_nil_r; reflexivity.
      * destruct (onFail config); simpl; loop_log; repeat split; eauto.
    + apply Nat.ltb_ge in Lt. assert (fc = n) as -> by lia.
      simpl. rewrite orb_true_r. unfold loopInv, loopStage.
      engine_cases; (split; [exact RC|]); exists n; loop_log;
        rewrite ?OF, ?Hs, ?A; destruct (onError config); simpl;
        rewrite ?app_nil_r, ?Nat.add_0_r; repeat split; auto.
  - (* TimerFired *)
    destruct t as [| |e|[]|[]|[]]; loop_same RC fc.
  - (* Microtask *)
    destruct t as [| | |[|e]|[|e]|[|e]]; try (loop_same RC fc; fail).
    + destruct St as (-> & A & -> & Hs).
      unfold loopInv, loopStage.
      engine_cases; (split; [exact RC|]); exists 0%nat;
        rewrite ?always_fails, ?A; loop_log; rewrite ?A, ?Hs; repeat split; auto.
    + destruct St as (-> & A & (j & -> & ->) & Hs).
      assert (rc = false) as -> by (destruct RC; [assumption | lia]).
      unfold loopInv, loopStage.
      engine_cases; (split; [left; reflexivity|]); exists (S j);
        rewrite ?always_fails, ?A; loop_log; rewrite ?A, ?Hs; repeat split; eauto.
  - (* Continue *)
    destruct t as [| | |[]|[]|[]]; loop_same RC fc;
      destruct (onPause config); simpl; rewrite ?app_nil_r, ?Nat.add_0_r; auto.
  - (* CancelRetry *)
    split; [right; exact U|]. exists fc. auto.
  - (* ContinueRetry *)
    split; [left; reflexivity|]. exists fc. auto.
  - (* VisibilityChange *)
    split; [exact RC|]. exists fc. auto.
  - (* OnlineChange *)
    split; [exact RC|]. exists fc. auto.
Qed.

Lemma loopInv_exec (inputs : list Input) (s : State) :
  Forall (undisturbed n) inputs ->
  loopInv config n err s -> loopInv config n err (exec config s inputs).
Proof.
  revert s. induction inputs as [|i inputs IH]; intros s U I; simpl; [exact I|].
  inversion U; subst. apply IH; [assumption|]. apply loopInv_step; assumption.
Qed.

(** What the invariant says about the log. *)
Lemma loopInv_log (s : State) :
  loopInv config n err s ->
  (attempts (log s) <= S n)%nat /\
  (exists fc, (fc <= n)%nat /\
     onFailCalls (log s) = if onFail config then expectedFails err fc else []) /\
  (isResolved s = false -> settlements (log s) = []) /\
  (isResolved s = true ->
     attempts (log s) = S n /\
     onFailCalls (log s) = (if onFail config then expectedFails err n else []) /\
     settlements (log s) = [Failed (WorkError (err n))]).
Proof.
  intros [_ (fc & _ & Le & OF & St)]. unfold loopStage in St.
  split; [|split; [|split]].
  - destruct (thread s) as [| | |[]|[]|[]]; destruct St as (? & ? & ? & ?); lia.
  - exists fc. auto.
  - intros R.
    destruct (thread s) as [| | |[]|[]|[]]; destruct St as (R' & _ & _ & S);
      congruence.
  - intros R.
    destruct (thread s) as [| | |[]|[]|[]]; destruct St as (R' & A & B & S);
      try congruence.
    subst fc. auto.
Qed.

Lemma attemptCycle_exec (fc : nat) (e : TError) (s : State) :
  failureCount s = Z.of_nat fc ->
  (fc < n)%nat ->
  thread s = AwaitingFn (Rejected e) ->
  isResolved s = false ->
  isRetryCancelled s = false ->
  shouldPause config (host s) = false ->
  let s' := exec config s attemptCycle in
  failureCount s' = Z.of_nat (S fc) /\
  (exists p, thread s' = AwaitingFn (Rejected p)) /\
  isResolved s' = false /\ isRetryCancelled s' = false /\ host s' = host s.
Proof.
  destruct s as [rc f r c t h l].
  cbn [isRetryCancelled failureCount isResolved thread host].
  intros -> Lt -> -> -> P.
  unfold attemptCycle, exec. cbn [fold_left].
  cbn [step thread]. unfold onRejected.
  cbn [isRetryCancelled failureCount isResolved thread host orb].
  rewrite retry_count. apply Nat.ltb_lt in Lt. rewrite Lt. cbn [negb].
  unfold set_failureCount, call, emit, set_thread.
  cbn [isRetryCancelled failureCount isResolved continueFn thread host log].
  cbn [step thread]. unfold afterSleep. cbn [host]. rewrite P.
  unfold set_thread.
  cbn [isRetryCancelled failureCount isResolved continueFn thread host log].
  cbn [step thread resume isRetryCancelled]. unfold run, set_thread, emit.
  cbn [isRetryCancelled failureCount isResolved continueFn thread host log].
  rewrite always_fails. repeat split; eauto. lia.
Qed.

Lemma loop_settles (m fc : nat) (s : State) :
  (fc + m = n)%nat ->
  failureCount s = Z.of_nat fc ->
  (exists p, thread s = AwaitingFn (Rejected p)) ->
  isResolved s = false ->
  isRetryCancelled s = false \/ n = 0%nat ->
  shouldPause config (host s) = false ->
  isResolved (exec config s (cycles m ++ [FnSettled])) = true.
Proof.
  revert fc s. induction m as [|m IH]; intros fc s E F [p T] R C P.
  - destruct s as [rc f r c t h l]; simpl in F, T, R, C, P; subst f t r.
    simpl. unfold onRejected. simpl. rewrite retry_count.
    replace (fc <? n)%nat with false by (symmetry; apply Nat.ltb_ge; lia).
    simpl. rewrite orb_true_r. engine_cases; reflexivity.
  - change (cycles (S m) ++ [FnSettled])
      with (attemptCycle ++ (cycles m ++ [FnSettled])).
    rewrite exec_app.
    assert (isRetryCancelled s = false) as C' by (destruct C; [assumption | lia]).
    destruct (attemptCycle_exec fc p s F ltac:(lia) T R C' P)
      as (F' & T' & R' & C'' & H').
    apply (IH (S fc)); auto; [lia | congruence].
Qed.

(** From any stage of the loop, the host can bring the chain to the point
    where it waits for the unit of work, with both gates open. *)
Lemma loop_reaches_attempt (s : State) :
  loopInv config n err s ->
  continuationInv s ->
  isResolved s = false ->
  exists pre,
    Forall (undisturbed n) pre /\
    (exists p, thread (exec config s pre) = AwaitingFn p) /\
    shouldPause config (host (exec config s pre)) = false.
Proof.
  intros [RC (fc & F & Le & OF & St)] CI R.
  destruct s as [rc f r c t h l]. unfold loopStage in St.
  unfold continuationInv in CI. simpl in RC, F, OF, St, CI, R. subst f r c.
  assert (forall e, waitingRetry e t -> rc = false) as NC.
  { intros e [-> | [-> | [-> | ->]]]; destruct St as (_ & _ & (j & -> & _) & _);
      destruct RC; (assumption || lia). }
  destruct t as [|p|e|k|k|k].
  - destruct St as (St & _). discriminate.
  - exists openGates. split; [repeat constructor|].
    simpl. split; [eauto | apply (shouldPause_open config)].
  - exists (openGates ++ [TimerFired; Microtask]).
    split; [repeat constructor|].
    rewrite (NC e) by (unfold waitingRetry; auto).
    simpl. unfold afterSleep. simpl. rewrite (shouldPause_open config). simpl.
    split; [eauto | apply (shouldPause_open config)].
  - exists (openGates ++ [Continue; Microtask; Microtask]).
    split; [repeat constructor|].
    simpl. unfold callContinueFn. simpl. rewrite (shouldPause_open config). simpl.
    destruct k as [|e]; simpl.
    + split; [eauto | apply (shouldPause_open config)].
    + rewrite (NC e) by (unfold waitingRetry; auto). simpl.
      split; [eauto | apply (shouldPause_open config)].
  - exists (openGates ++ [Microtask; Microtask]).
    split; [repeat constructor|].
    destruct k as [|e]; simpl.
    + split; [eauto | apply (shouldPause_open config)].
    + rewrite (NC e) by (unfold waitingRetry; auto 6). simpl.
      split; [eauto | apply (shouldPause_open config)].
  - exists (openGates ++ [Microtask]).
    split; [repeat constructor|].
    destruct k as [|e]; simpl.
    + split; [eauto | apply (shouldPause_open config)].
    + rewrite (NC e) by (unfold waitingRetry; auto 6). simpl.
      split; [eauto | apply (shouldPause_open config)].
Qed.

(** Every undisturbed run can be continued, undisturbed, until the
    retryer is resolved. *)
Lemma loop_can_settle (h : Host) (inputs : list Input) :
  Forall (undisturbed n) inputs ->
  exists more,
    Forall (undisturbed n) more /\
    isResolved (exec config (CreateRetryer config h) (inputs ++ more)) = true.
Proof.
  intros U.
  pose proof (loopInv_exec inputs _ U (loopInv_CreateRetryer h)) as I.
  pose proof (continuationInv_exec config inputs _
                (continuationInv_CreateRetryer config h)) as CI.
  destruct (isResolved (exec config (CreateRetryer config h) inputs)) eqn:R.
  - exists []. split; [constructor|]. rewrite app_nil_r. exact R.
  - destruct (loop_reaches_attempt _ I CI R) as (pre & Upre & [p T] & P).
    pose proof (loopInv_exec pre _ Upre I) as [RC (fc & F & Le & _ & St)].
    unfold loopStage in St. rewrite T in St. destruct St as (R' & _ & -> & _).
    exists (pre ++ (cycles (n - fc) ++ [FnSettled])). split.
    + apply Forall_app. split; [exact Upre|]. apply Forall_app. split.
      * clear. induction (n - fc)%nat; simpl; repeat constructor; assumption.
      * repeat constructor.
    + rewrite (exec_app config _ inputs), (exec_app config _ pre).
      apply (loop_settles (n - fc) fc); eauto. lia.
Qed.

End RetryLoop.

Section RetryPolicies.

Context {TData TError : Type}.
Variable config : @RetryerConfig TData TError.
Variable err : nat -> TError.
Hypothesis always_fails :
  forall k, promiseOrValue (fn config k) = Rejected (err k).


Lemma shouldRetry_default (fc : nat) (e : TError) :
  retry config = None \/ retry config = Some (RetryNumber 3) ->
  shouldRetry config (Z.of_nat fc) e = (fc <? 3)%nat.
Proof.
  intros H. unfold shouldRetry, retryOf.
  assert (match retry config with Some r => r | None => RetryNumber 3 end
          = RetryNumber 3) as -> by (destruct H as [-> | ->]; reflexivity).
  destruct (Z.ltb_spec (Z.of_nat fc) 3), (Nat.ltb_spec fc 3); auto; lia.
Qed.

Lemma shouldRetry_never (fc : nat) (e : TError) :
  retry config = Some (RetryBool false) \/ retry config = Some (RetryNumber 0) ->
  shouldRetry config (Z.of_nat fc) e = (fc <? 0)%nat.
Proof.
  intros H. unfold shouldRetry, retryOf.
  destruct H as [-> | ->]; [reflexivity|].
  destruct (Z.ltb_spec (Z.of_nat fc) 0); [lia | reflexivity].
Qed.

(** C2.  The retry policy is 3, given or by default, and every
    invocation of the unit of work fails, number [k] with [err k].  In
    any run without [cancel] and [cancelRetry]: there are at most 4
    invocations, and the calls of [onFail] are an initial part of
    (1, err 0), (2, err 1), (3, err 2); nothing is handed to the promise
    before the retryer is resolved, and when it is resolved there have
    been exactly 4 invocations, [onFail] has been called exactly with
    failure counts 1, 2, 3 in that order, and the promise has been
    rejected with [err 3], the error of the 4th invocation.  Every such
    run can be continued, still without [cancel] and [cancelRetry], until
    the retryer is resolved; the run in which every completion and every
    timer is delivered, with no pause, is one that resolves. *)
Theorem three_retries_four_attempts (h : Host) (inputs : list Input) :
  retry config = None \/ retry config = Some (RetryNumber 3) ->
  Forall (undisturbed 3) inputs ->
  let s := exec config (CreateRetryer config h) inputs in
  let fails := [(1, err 0%nat); (2, err 1%nat); (3, err 2%nat)] in
  (attempts (log s) <= 4)%nat /\
  (exists fc, (fc <= 3)%nat /\
     onFailCalls (log s) = if onFail config then firstn fc fails else []) /\
  (isResolved s = false -> settlements (log s) = []) /\
  (isResolved s = true ->
     attempts (log s) = 4%nat /\
     onFailCalls (log s) = (if onFail config then fails else []) /\
     settlements (log s) = [Failed (WorkError (err 3%nat))]) /\
  (exists more,
     Forall (undisturbed 3) more /\
     isResolved (exec config (CreateRetryer config h) (inputs ++ more)) = true) /\
  (canFetch h (networkMode config) = true ->
   shouldPause config h = false ->
   isResolved (exec config (CreateRetryer config h) (cycles 3 ++ [FnSettled])) = true).
Proof.
  intros Hr U s fails.
  pose proof (fun fc e => shouldRetry_default fc e Hr) as RC.
  pose proof (loopInv_exec config 3 err RC always_fails inputs _ U
                (loopInv_CreateRetryer config 3 err always_fails h)) as I.
  destruct (loopInv_log config 3 err s I) as (A & (fc & Le & OF) & N & D).
  split; [exact A|]. split; [|split; [exact N|split; [exact D|split]]].
  - exists fc. split; [exact Le|]. rewrite OF.
    destruct (onFail config); [|reflexivity].
    destruct fc as [|[|[|[|fc]]]]; try reflexivity. lia.
  - exact (loop_can_settle config 3 err RC always_fails h inputs U).
  - intros C P.
    apply (loop_settles config 3 err RC always_fails 3 0);
      rewrite ?(CreateRetryer_runs config h C); simpl; eauto.
    rewrite always_fails. eauto.
Qed.

(** C8.  The retry policy is [false] or 0, and every invocation of the
    unit of work fails.  In any run without [cancel]: [onFail] is never
    called and there is at most one invocation; nothing is handed to the
    promise before the retryer is resolved, and when it is resolved there
    has been exactly one invocation and the promise has been rejected
    with [err 0], the error of that invocation.  Every such run can be
    continued, still without [cancel], until the retryer is resolved; when
    construction invokes the unit of work, its failure resolves the
    retryer at once. *)
Theorem no_retry_single_attempt (h : Host) (inputs : list Input) :
  retry config = Some (RetryBool false) \/ retry config = Some (RetryNumber 0) ->
  (forall o, ~ In (Cancel o) inputs) ->
  let s := exec config (CreateRetryer config h) inputs in
  onFailCalls (log s) = [] /\
  (attempts (log s) <= 1)%nat /\
  (isResolved s = false -> settlements (log s) = []) /\
  (isResolved s = true ->
     attempts (log s) = 1%nat /\
     settlements (log s) = [Failed (WorkError (err 0%nat))]) /\
  (exists more,
     (forall o, ~ In (Cancel o) more) /\
     isResolved (exec config (CreateRetryer config h) (inputs ++ more)) = true) /\
  (canFetch h (networkMode config) = true ->
   let s' := exec config (CreateRetryer config h) [FnSettled] in
   isResolved s' = true /\
   log s' = [CallFn]
            ++ (if onError config then [CallOnError (WorkError (err 0%nat))] else [])
            ++ [PromiseReject (WorkError (err 0%nat))]).
Proof.
  intros Hr NC s.
  pose proof (fun fc e => shouldRetry_never fc e Hr) as RC.
  assert (Forall (undisturbed 0) inputs) as U.
  { apply Forall_forall. intros [] Hi; simpl; auto. exact (NC _ Hi). }
  pose proof (loopInv_exec config 0 err RC always_fails inputs _ U
                (loopInv_CreateRetryer config 0 err always_fails h)) as I.
  destruct (loopInv_log config 0 err s I) as (A & (fc & Le & OF) & N & D).
  split; [|split; [exact A|split; [exact N|split; [|split]]]].
  - rewrite OF. assert (fc = 0%nat) as -> by lia.
    destruct (onFail config); reflexivity.
  - intros R. destruct (D R) as (D1 & _ & D3). auto.
  - destruct (loop_can_settle config 0 err RC always_fails h inputs U)
      as (more & Um & Rm).
    exists more. split; [|exact Rm].
    intros o Hi. exact (proj1 (Forall_forall _ _) Um _ Hi).
  - intros C s'. subst s'. rewrite (CreateRetryer_runs config h C).
    unfold exec. simpl. rewrite always_fails.
    unfold onRejected. simpl. rewrite (RC 0%nat). simpl.
    rewrite ?orb_true_r. engine_cases; auto.
Qed.

End RetryPolicies.

Lemma three_retries_four_attempts_witness :
  let cfg := Examples.allHooks None None in
  let s := exec cfg (CreateRetryer cfg Examples.visible) (cycles 3 ++ [FnSettled]) in
  isResolved s = true /\
  attempts (log s) = 4%nat /\
  onFailCalls (log s) = [(1, 0%nat); (2, 1%nat); (3, 2%nat)] /\
  settlements (log s) = [Failed (WorkError 3%nat)].
Proof.
  split; [reflexivity|].
  refine (proj1 (proj2 (proj2 (proj2
    (three_retries_four_attempts (Examples.allHooks None None) (fun k => k)
       (fun k => eq_refl) Examples.visible (cycles 3 ++ [FnSettled])
       (or_introl eq_refl) _)))) eq_refl).
  repeat constructor.
Defined.

Lemma no_retry_single_attempt_witness :
  let cfg := Examples.allHooks (Some (RetryBool false)) None in
  let s := exec cfg (CreateRetryer cfg Examples.visible) [CancelRetry; FnSettled] in
  isResolved s = true /\
  onFailCalls (log s) = [] /\
  attempts (log s) = 1%nat /\
  settlements (log s) = [Failed (WorkError 0%nat)].
Proof.
  split; [reflexivity|].
  destruct (no_retry_single_attempt (Examples.allHooks (Some (RetryBool false)) None)
              (fun k => k) (fun k => eq_refl) Examples.visible
              [CancelRetry; FnSettled] (or_introl eq_refl))
    as (F & _ & _ & D & _).
  - intros o [H | [H | []]]; discriminate.
  - split; [exact F|]. exact (D eq_refl).
Defined.

Lemma settles_at_most_once_witness :
  let cfg := Examples.allHooks (Some (RetryBool false)) None in
  let s := exec cfg (CreateRetryer cfg Examples.visible) [FnSettled] in
  isResolved s = true /\
  cancel cfg None s = s /\
  log (exec cfg s [Cancel None; Continue; CancelRetry; ContinueRetry; Microtask]) = log s.
Proof.
  split; [reflexivity|].
  destruct (proj2 (proj2 (settles_at_most_once
              (Examples.allHooks (Some (RetryBool false)) None)
              Examples.visible [FnSettled]))
              0 (WorkError 0%nat) None
              [Cancel None; Continue; CancelRetry; ContinueRetry; Microtask]
              eq_refl)
    as (_ & _ & C & _ & _ & _ & _ & L & _).
  split; [exact C | exact L].
Defined.

(** ** What the terminal hooks and the abort hook are told *)

Section Announcements.

Context {TData TError : Type}.
Variable config : @RetryerConfig TData TError.

#[local] Abbreviation State := (@State TData TError).
#[local] Abbreviation Event := (@Event TData TError).

Lemma terminalCalls_app (l1 l2 : list Event) :
  terminalCalls (l1 ++ l2) = terminalCalls l1 ++ terminalCalls l2.
Proof.
  induction l1 as [|[] l1 IH]; simpl; rewrite ?IH; reflexivity.
Qed.

Lemma sleepDelays_app (l1 l2 : list Event) :
  sleepDelays (l1 ++ l2) = sleepDelays l1 ++ sleepDelays l2.
Proof.
  induction l1 as [|[] l1 IH]; simpl; rewrite ?IH; reflexivity.
Qed.

Lemma announcedInv_step (s : State) (i : Input) :
  settledOnce s -> announcedInv config s -> announcedInv config (step config s i).
Proof.
  intros [Hs _]. unfold announcedInv. destruct (isResolved s) eqn:R.
  - destruct (resolved_frozen config s i R) as [_ ->]. auto.
  - destruct s as [rc fc r c t h l]. simpl in R, Hs |- *. subst r.
    apply length_zero_iff_nil in Hs. rewrite Hs. simpl. intros [Ht Ha].
    assert (abortCalls l = 0%nat) as Ha' by (destruct (abort config); exact Ha).
    clear Ha.
    destruct i; engine_cases;
      rewrite ?terminalCalls_app, ?settlements_app, ?abortCalls_app, ?filter_app;
      simpl; rewrite ?Hs, ?Ht, ?Ha'; simpl;
      rewrite ?E, ?E0, ?E1, ?E2; simpl; auto.
Qed.

Lemma announcedInv_exec (inputs : list Input) (s : State) :
  settledOnce s -> announcedInv config s ->
  announcedInv config (exec config s inputs).
Proof.
  revert s. induction inputs as [|i inputs IH]; intros s O A; simpl; [exact A|].
  apply IH; [apply settledOnce_step, O | apply announcedInv_step; assumption].
Qed.

Lemma announcedInv_CreateRetryer (h : Host) :
  announcedInv config (CreateRetryer config h).
Proof.
  unfold announcedInv, CreateRetryer.
  destruct (canFetch h (networkMode config)); simpl;
    destruct (abort config); auto.
Qed.

Lemma no_cancellation_step (s : State) (i : Input) :
  isCancel i = false ->
  filter madeByCancel (settlements (log s)) = [] ->
  filter madeByCancel (settlements (log (step config s i))) = [].
Proof.
  destruct s as [rc fc r c t h l]. simpl. intros NC F.
  destruct i; try discriminate; engine_cases;
    rewrite ?settlements_app, ?filter_app; simpl; rewrite ?F; auto.
Qed.

Lemma no_cancellation_exec (inputs : list Input) (s : State) :
  existsb isCancel inputs = false ->
  filter madeByCancel (settlements (log s)) = [] ->
  filter madeByCancel (settlements (log (exec config s inputs))) = [].
Proof.
  revert s. induction inputs as [|i inputs IH]; intros s NC F; simpl; [exact F|].
  simpl in NC. apply orb_false_iff in NC. destruct NC as [NC1 NC2].
  apply IH; [exact NC2 | apply no_cancellation_step; assumption].
Qed.

(** X1.  In every run the terminal hooks have been called exactly for the
    outcomes handed to the promise: [onSuccess] with the value it was
    resolved with, [onError] with the value it was rejected with (a
    cancellation included), each if the hook is present; so there is at
    most one terminal call, none before settlement, and never both an
    [onSuccess] and an [onError]. *)
Theorem terminal_hooks_announce_outcome (h : Host) (inputs : list Input) :
  let s := exec config (CreateRetryer config h) inputs in
  terminalCalls (log s) = filter (notified config) (settlements (log s)) /\
  (List.length (terminalCalls (log s)) <= 1)%nat /\
  (isResolved s = false -> terminalCalls (log s) = []) /\
  (isResolved s = true -> onSuccess config = true -> onError config = true ->
     terminalCalls (log s) = settlements (log s)).
Proof.
  intros s.
  pose proof (settledOnce_exec config inputs _ (settledOnce_CreateRetryer config h))
    as [Hs _].
  pose proof (announcedInv_exec inputs _ (settledOnce_CreateRetryer config h)
                (announcedInv_CreateRetryer h)) as [Ht _].
  fold s in Hs, Ht. split; [exact Ht|]. rewrite Ht.
  destruct (settlements (log s)) as [|o [|o' l]]; simpl in Hs |- *.
  - repeat split; auto.
  - destruct (isResolved s); [|discriminate].
    split; [destruct (notified config o); simpl; lia|].
    split; [discriminate|]. intros _ S E. unfold notified.
    destruct o; rewrite ?S, ?E; reflexivity.
  - destruct (isResolved s); discriminate.
Qed.

(** X2.  In every run [config.abort], when present, has been called once
    for each rejection that [cancel] made, and not otherwise; such a
    rejection occurs only in a run in which [cancel] was called.  In a
    run in which [cancel] is never called [config.abort] is never called
    and every rejection value is what the unit of work failed with: on
    it [isCancelledError] is true exactly when the unit of work itself
    failed with an instance of [CancelledError], so that the test alone
    does not tell that [cancel] was called. *)
Theorem abort_exactly_on_cancellation (h : Host) (inputs : list Input) :
  let s := exec config (CreateRetryer config h) inputs in
  abortCalls (log s) =
    (if abort config
     then List.length (filter madeByCancel (settlements (log s)))
     else 0%nat) /\
  (forall c, In (Failed (Cancellation c)) (settlements (log s)) ->
     existsb isCancel inputs = true) /\
  (existsb isCancel inputs = false ->
     abortCalls (log s) = 0%nat /\
     forall (isInstance : TError -> bool) value,
       In (Failed value) (settlements (log s)) ->
       exists e, value = WorkError e /\
                 isCancelledError isInstance value = isInstance e).
Proof.
  intros s.
  pose proof (announcedInv_exec inputs _ (settledOnce_CreateRetryer config h)
                (announcedInv_CreateRetryer h)) as [_ Ha].
  fold s in Ha. split; [exact Ha|].
  assert (existsb isCancel inputs = false ->
          filter madeByCancel (settlements (log s)) = []) as NF.
  { intros NC. apply no_cancellation_exec; [exact NC|].
    unfold CreateRetryer. destruct (canFetch h (networkMode config)); reflexivity. }
  assert (forall c, In (Failed (Cancellation c)) (settlements (log s)) ->
          existsb isCancel inputs = true) as OnlyCancel.
  { intros c Hin. destruct (existsb isCancel inputs) eqn:NC; [reflexivity|].
    assert (In (Failed (Cancellation c))
              (filter madeByCancel (settlements (log s)))) as Hf
      by (apply filter_In; split; [exact Hin | reflexivity]).
    rewrite (NF eq_refl) in Hf. destruct Hf. }
  split; [exact OnlyCancel|]. intros NC. split.
  - rewrite Ha, (NF NC). destruct (abort config); reflexivity.
  - intros isInstance [e|c] Hin.
    + exists e. split; reflexivity.
    + rewrite (OnlyCancel c Hin) in NC. discriminate.
Qed.

End Announcements.

Lemma terminal_hooks_announce_outcome_witness :
  let cfg := Examples.allHooks (Some (RetryBool false)) None in
  let s := exec cfg (CreateRetryer cfg Examples.visible) [FnSettled; Cancel None] in
  isResolved s = true /\
  terminalCalls (log s) = [Failed (WorkError 0%nat)] /\
  settlements (log s) = [Failed (WorkError 0%nat)].
Proof.
  split; [reflexivity|]. split; [|reflexivity].
  exact (proj2 (proj2 (proj2 (terminal_hooks_announce_outcome
           (Examples.allHooks (Some (RetryBool false)) None)
           Examples.visible [FnSettled; Cancel None])))
           eq_refl eq_refl eq_refl).
Defined.

Lemma abort_exactly_on_cancellation_witness :
  let cfg := Examples.allHooks (Some (RetryBool false)) None in
  let s := exec cfg (CreateRetryer cfg Examples.visible) [FnSettled] in
  let isInstance := fun e : nat => Nat.eqb e 0 in
  settlements (log s) = [Failed (WorkError 0%nat)] /\
  abortCalls (log s) = 0%nat /\
  exists e, WorkError 0%nat = WorkError e /\
            isCancelledError isInstance (@WorkError nat 0%nat) = isInstance e.
Proof.
  split; [reflexivity|].
  destruct (proj2 (proj2 (abort_exactly_on_cancellation
              (Examples.allHooks (Some (RetryBool false)) None)
              Examples.visible [FnSettled])) eq_refl) as [A I].
  split; [exact A|].
  exact (I (fun e : nat => Nat.eqb e 0) (WorkError 0%nat) (or_introl eq_refl)).
Defined.

(** ** What the counters record *)

Section CounterFacts.

Context {TData TError : Type}.
Variable config : @RetryerConfig TData TError.

#[local] Abbreviation State := (@State TData TError).

Lemma Forall2_snoc {A B : Type} (R : A -> B -> Prop) (l1 : list A) (l2 : list B)
    (a : A) (b : B) :
  Forall2 R l1 l2 -> R a b -> Forall2 R (l1 ++ [a]) (l2 ++ [b]).
Proof.
  intros H1 H2. apply Forall2_app; [exact H1 | repeat constructor; exact H2].
Qed.

Ltac count_log :=
  rewrite ?attempts_app, ?onFailCalls_app, ?sleepDelays_app; simpl;
  rewrite ?app_nil_r, ?Nat.add_0_r, ?Nat.add_1_r.

(** Closes the cases in which the event leaves the counters as they are. *)
Ltac count_same fc :=
  unfold countInv, countStage; engine_cases; exists fc; count_log;
  intuition (try lia; eauto).

Lemma countInv_step (s : State) (i : Input) :
  countInv config s -> countInv config (step config s i).
Proof.
  intros (fc & F & Sl & OF & St).
  destruct s as [rc f r c t h l]. simpl in F, Sl, OF. subst f.
  unfold countStage in St. simpl in St.
  destruct i.
  - (* FnSettled *)
    destruct t as [|p|e|[|e]|[|e]|[|e]]; try (count_same fc; fail).
    destruct St as (A & ->).
    destruct (promiseOrValue (fn config fc)) as [v|e] eqn:P.
    + count_same fc.
    + simpl. unfold onRejected. simpl.
      destruct r; [count_same fc|].
      destruct (rc || negb (shouldRetry config (Z.of_nat fc) e)) eqn:D.
      * count_same fc.
      * exists (S fc). rewrite seq_S. unfold countStage.
        cbn [isRetryCancelled failureCount isResolved continueFn thread host log
             Nat.add].
        rewrite !attempts_app, !onFailCalls_app, !sleepDelays_app.
        destruct (onFail config);
          cbn [attempts onFailCalls sleepDelays app];
          rewrite ?app_nil_r, ?Nat.add_0_r.
        -- split; [lia|]. split; [|split; [|eauto]].
           ++ apply Forall2_snoc; [exact Sl|].
              exists e. split; [exact P | reflexivity].
           ++ apply Forall2_snoc; [exact OF|]. split; [simpl; lia | exact P].
        -- split; [lia|]. split; [|split; [exact OF|eauto]].
           apply Forall2_snoc; [exact Sl|].
           exists e. split; [exact P | reflexivity].
  - (* TimerFired *)
    destruct t as [| |e|[]|[]|[]]; count_same fc.
  - (* Microtask *)
    destruct t as [| | |[|e]|[|e]|[|e]]; try (count_same fc; fail).
    + destruct St as (A & ->). unfold countInv, countStage.
      engine_cases; exists 0%nat; count_log; rewrite ?A;
        intuition (try lia; eauto).
    + destruct St as (A & j & -> & Fj). unfold countInv, countStage.
      engine_cases; exists (S j); count_log; rewrite ?A;
        intuition (try lia; eauto).
  - (* Cancel *)
    destruct t as [| | |[]|[]|[]]; count_same fc.
  - (* Continue *)
    destruct t as [| | |[]|[]|[]]; count_same fc.
  - exists fc. auto.
  - exists fc. auto.
  - exists fc. auto.
  - exists fc. auto.
Qed.

Lemma countInv_exec (inputs : list Input) (s : State) :
  countInv config s -> countInv config (exec config s inputs).
Proof.
  revert s. induction inputs as [|i inputs IH]; intros s H; simpl; [exact H|].
  apply IH, countInv_step, H.
Qed.

Lemma countInv_CreateRetryer (h : Host) : countInv config (CreateRetryer config h).
Proof.
  unfold CreateRetryer, countInv, countStage. exists 0%nat.
  destruct (canFetch h (networkMode config)); simpl;
    destruct (onFail config); repeat split; auto.
Qed.

Lemma Forall2_map_eq {A B : Type} (f : A -> B) (l1 : list A) (l2 : list B) :
  Forall2 (fun a b => b = f a) l1 l2 -> l2 = map f l1.
Proof. induction 1; simpl; congruence. Qed.

Lemma Forall2_map_fst {A B C : Type} (f : A -> B) (l1 : list A) (l2 : list (B * C)) :
  Forall2 (fun a c => fst c = f a) l1 l2 -> map fst l2 = map f l1.
Proof. induction 1; simpl; congruence. Qed.

Lemma Forall2_weaken {A B : Type} (R R' : A -> B -> Prop) (l1 : list A) (l2 : list B) :
  (forall a b, R a b -> R' a b) -> Forall2 R l1 l2 -> Forall2 R' l1 l2.
Proof. intros H. induction 1; constructor; auto. Qed.

Lemma Forall2_left {A B : Type} (R : A -> B -> Prop) (l1 : list A) (l2 : list B) (a : A) :
  Forall2 R l1 l2 -> In a l1 -> exists b, R a b.
Proof.
  induction 1 as [|x y l1 l2 Hxy _ IH]; intros Hin; [destruct Hin|].
  destruct Hin as [<- | Hin]; eauto.
Qed.

Lemma resolved_failureCount (inputs : list Input) (s : State) :
  isResolved s = true -> failureCount (exec config s inputs) = failureCount s.
Proof.
  revert s. induction inputs as [|i inputs IH]; intros s R; simpl; [reflexivity|].
  rewrite IH by (apply resolved_frozen; exact R).
  destruct s as [rc fc r c t h l]. simpl in R. subst r.
  destruct i; engine_cases; reflexivity.
Qed.

(** X3.  In every run, whatever the retry policy and the unit of work:
    the failure count is the number of delays started so far, and the
    delay number [k] (from 0) was computed from failure count [k], before
    the increment, and the error of the invocation number [k].  With no
    [retryDelay] given the delays are the default backoff at 0, 1, 2, ...
    (1000, 2000, 4000, ... capped at 30000); with a number given every
    delay is that number. *)
Theorem delays_follow_policy (h : Host) (inputs : list Input) :
  let s := exec config (CreateRetryer config h) inputs in
  exists fc : nat,
    failureCount s = Z.of_nat fc /\
    List.length (sleepDelays (log s)) = fc /\
    Forall2 (sleepAt config) (seq 0 fc) (sleepDelays (log s)) /\
    (retryDelay config = None ->
       sleepDelays (log s) = map (fun k => defaultRetryDelay (Z.of_nat k)) (seq 0 fc) /\
       Forall (fun d => 1000 <= d <= 30000) (sleepDelays (log s))) /\
    (forall ms, retryDelay config = Some (DelayNumber ms) ->
       sleepDelays (log s) = repeat ms fc) /\
    (forall f, retryDelay config = Some (DelayFunction f) ->
       Forall2 (fun k d => exists e, failedAt config k e /\ d = f (Z.of_nat k) e)
         (seq 0 fc) (sleepDelays (log s))).
Proof.
  intros s.
  destruct (countInv_exec inputs _ (countInv_CreateRetryer h))
    as (fc & F & Sl & _ & _).
  fold s in F, Sl. exists fc. split; [exact F|]. split.
  { rewrite <- (Forall2_length Sl). apply length_seq. }
  split; [exact Sl|]. split; [|split].
  - intros D.
    assert (sleepDelays (log s)
            = map (fun k => defaultRetryDelay (Z.of_nat k)) (seq 0 fc)) as E.
    { apply Forall2_map_eq. revert Sl. apply Forall2_weaken.
      intros k d (e & _ & ->). unfold delayOf. rewrite D. reflexivity. }
    split; [exact E|]. rewrite E. apply Forall_forall. intros d Hd.
    apply in_map_iff in Hd. destruct Hd as (k & <- & _).
    pose proof (defaultRetryDelay_mono 0 (Z.of_nat k) ltac:(lia)) as Lo.
    change (defaultRetryDelay 0) with 1000 in Lo.
    split; [exact Lo | apply Z.le_min_r].
  - intros ms D.
    assert (sleepDelays (log s) = map (fun _ => ms) (seq 0 fc)) as E.
    { apply Forall2_map_eq. revert Sl. apply Forall2_weaken.
      intros k d (e & _ & ->). unfold delayOf. rewrite D. reflexivity. }
    rewrite E. clear. generalize 0%nat.
    induction fc as [|fc IH]; intros a; simpl; [reflexivity|]. rewrite IH.
    reflexivity.
  - intros f D. revert Sl. apply Forall2_weaken.
    intros k d (e & Fe & ->). exists e. split; [exact Fe|].
    unfold delayOf. rewrite D. reflexivity.
Qed.

(** X4.  In every run with an [onFail] hook, whatever the retry policy:
    the calls of [onFail] carry the failure counts 1, 2, ..., up to the
    current failure count, each exactly once and in that order, and the
    call with count [k + 1] carries the error of the invocation number
    [k] of the unit of work.  Without the hook there is no call. *)
Theorem onFail_counts_are_consecutive (h : Host) (inputs : list Input) :
  let s := exec config (CreateRetryer config h) inputs in
  exists fc : nat,
    failureCount s = Z.of_nat fc /\
    (onFail config = true ->
       Forall2 (onFailAt config) (seq 0 fc) (onFailCalls (log s)) /\
       map fst (onFailCalls (log s)) = map (fun k => Z.of_nat (S k)) (seq 0 fc)) /\
    (onFail config = false -> onFailCalls (log s) = []).
Proof.
  intros s.
  destruct (countInv_exec inputs _ (countInv_CreateRetryer h))
    as (fc & F & _ & OF & _).
  fold s in F, OF. exists fc. split; [exact F|].
  destruct (onFail config); split; intros H; try discriminate; auto.
  split; [exact OF|].
  apply Forall2_map_fst. revert OF. apply Forall2_weaken.
  intros k c [Hc _]. exact Hc.
Qed.

(** X5.  In every run, whatever the retry policy, the unit of work and
    the control calls: the number of invocations of the unit of work is
    the failure count or one more, so that every invocation after the
    first follows a delay of its own and no two invocations are in flight
    together; while an invocation is in flight it is the one numbered by
    the failure count; every failure counted is a failure of the
    invocation with that number; and once the retryer is resolved the
    failure count does not change. *)
Theorem invocations_follow_failure_count (h : Host) (inputs : list Input) :
  let s := exec config (CreateRetryer config h) inputs in
  exists fc : nat,
    failureCount s = Z.of_nat fc /\
    (fc <= attempts (log s) <= S fc)%nat /\
    (forall p, thread s = AwaitingFn p ->
       attempts (log s) = S fc /\ p = promiseOrValue (fn config fc)) /\
    (forall k, (k < fc)%nat -> exists e, failedAt config k e) /\
    (isResolved s = true ->
     forall more, failureCount (exec config s more) = failureCount s).
Proof.
  intros s.
  destruct (countInv_exec inputs _ (countInv_CreateRetryer h))
    as (fc & F & Sl & _ & St).
  fold s in F, Sl, St. exists fc. split; [exact F|].
  unfold countStage in St. split; [|split; [|split]].
  - destruct (thread s) as [| | |[]|[]|[]]; intuition lia.
  - intros p T. rewrite T in St. exact St.
  - intros k Hk.
    destruct (Forall2_left _ _ _ k Sl) as (d & e & Fe & _); [|eauto].
    apply in_seq. lia.
  - intros R more. apply resolved_failureCount, R.
Qed.

End CounterFacts.

Lemma delays_follow_policy_witness :
  let cfg := Examples.allHooks (Some (RetryBool true)) None in
  let s := exec cfg (CreateRetryer cfg Examples.visible) (cycles 5) in
  List.length (sleepDelays (log s)) = 5%nat /\
  exists fc,
    sleepDelays (log s)
    = map (fun k => defaultRetryDelay (Z.of_nat k)) (seq 0 fc).
Proof.
  split; [reflexivity|].
  destruct (delays_follow_policy (Examples.allHooks (Some (RetryBool true)) None)
              Examples.visible (cycles 5))
    as (fc & _ & _ & _ & D & _).
  exists fc. exact (proj1 (D eq_refl)).
Defined.

Lemma onFail_counts_are_consecutive_witness :
  let cfg := Examples.allHooks (Some (RetryBool true)) None in
  let s := exec cfg (CreateRetryer cfg Examples.hidden)
             (cycles 2 ++ [Cancel None; ContinueRetry]) in
  exists fc,
    map fst (onFailCalls (log s)) = map (fun k => Z.of_nat (S k)) (seq 0 fc).
Proof.
  destruct (onFail_counts_are_consecutive
              (Examples.allHooks (Some (RetryBool true)) None)
              Examples.hidden (cycles 2 ++ [Cancel None; ContinueRetry]))
    as (fc & _ & D & _).
  exists fc. exact (proj2 (D eq_refl)).
Defined.

Lemma invocations_follow_failure_count_witness :
  let cfg := Examples.allHooks None None in
  let s := exec cfg (CreateRetryer cfg Examples.visible) (cycles 3 ++ [FnSettled]) in
  isResolved s = true /\
  forall more, failureCount (exec cfg s more) = failureCount s.
Proof.
  split; [reflexivity|].
  destruct (invocations_follow_failure_count (Examples.allHooks None None)
              Examples.visible (cycles 3 ++ [FnSettled]))
    as (fc & _ & _ & _ & _ & D).
  exact (D eq_refl).
Defined.

(** ** Retrying until the unit of work succeeds, or for ever *)

Section RetryOutcomes.

Context {TData TError : Type}.
Variable config : @RetryerConfig TData TError.

#[local] Abbreviation State := (@State TData TError).

(** One failed attempt that is retried, with no pause. *)
Lemma attemptCycle_retries (e : TError) (s : State) :
  thread s = AwaitingFn (Rejected e) ->
  isResolved s = false ->
  isRetryCancelled s = false ->
  shouldRetry config (failureCount s) e = true ->
  shouldPause config (host s) = false ->
  exec config s attemptCycle =
    mkState false (failureCount s + 1) false (continueFn s)
      (AwaitingFn (promiseOrValue (fn config (attempts (log s)))))
      (host s)
      (log s ++ (if onFail config then [CallOnFail (failureCount s + 1) e] else [])
             ++ [CallSleep (delayOf config (failureCount s) e); CallFn]).
Proof.
  destruct s as [rc f r c t h l].
  cbn [isRetryCancelled failureCount isResolved continueFn thread host log].
  intros -> -> -> Hr P.
  unfold attemptCycle, exec. cbn [fold_left].
  cbn [step thread]. unfold onRejected.
  cbn [isRetryCancelled failureCount isResolved thread host orb].
  rewrite Hr. cbn [negb].
  unfold set_failureCount, call, emit, set_thread.
  cbn [isRetryCancelled failureCount isResolved continueFn thread host log].
  cbn [step thread]. unfold afterSleep. cbn [host]. rewrite P.
  unfold set_thread.
  cbn [isRetryCancelled failureCount isResolved continueFn thread host log].
  cbn [step thread resume isRetryCancelled]. unfold run, set_thread, emit.
  cbn [isRetryCancelled failureCount isResolved continueFn thread host log].
  rewrite !attempts_app. simpl attempts at 2.
  replace (attempts (if onFail config then [CallOnFail (f + 1) e] else []))
    with 0%nat by (destruct (onFail config); reflexivity).
  rewrite !Nat.add_0_r, <- !app_assoc. reflexivity.
Qed.

(** From any point of the loop where the retryer is unresolved and its
    retries are not cancelled, the host can bring the chain to the point
    where it waits for the unit of work, with both gates open. *)
Lemma reaches_attempt (s : State) :
  continuationInv s ->
  isResolved s = false ->
  isRetryCancelled s = false ->
  thread s <> Idle ->
  exists pre,
    Forall quietRetry pre /\
    (exists p, thread (exec config s pre) = AwaitingFn p) /\
    shouldPause config (host (exec config s pre)) = false.
Proof.
  intros CI R RC NI.
  destruct s as [rc f r c t h l].
  unfold continuationInv in CI. simpl in CI, R, RC, NI. subst r rc c.
  destruct t as [|p|e|k|k|k].
  - contradiction.
  - exists openGates. split; [repeat constructor|].
    simpl. split; [eauto | apply (shouldPause_open config)].
  - exists (openGates ++ [TimerFired; Microtask]).
    split; [repeat constructor|].
    simpl. unfold afterSleep. simpl. rewrite (shouldPause_open config). simpl.
    split; [eauto | apply (shouldPause_open config)].
  - exists (openGates ++ [Continue; Microtask; Microtask]).
    split; [repeat constructor|].
    simpl. unfold callContinueFn. simpl. rewrite (shouldPause_open config). simpl.
    destruct k as [|e]; simpl; (split; [eauto | apply (shouldPause_open config)]).
  - exists (openGates ++ [Microtask; Microtask]).
    split; [repeat constructor|].
    destruct k as [|e]; simpl; (split; [eauto | apply (shouldPause_open config)]).
  - exists (openGates ++ [Microtask]).
    split; [repeat constructor|].
    destruct k as [|e]; simpl; (split; [eauto | apply (shouldPause_open config)]).
Qed.

Lemma cycles_quiet (k : nat) (tail : list Input) :
  Forall quietRetry tail -> Forall quietRetry (cycles k ++ tail).
Proof.
  intros H. induction k as [|k IH]; simpl; [exact H|].
  repeat constructor. exact IH.
Qed.

Section UntilSuccess.

Variable m : nat.
Variable err : nat -> TError.
Variable v : TData.
Hypothesis retries :
  forall (fc : nat) (e : TError),
    (fc < m)%nat -> shouldRetry config (Z.of_nat fc) e = true.
Hypothesis fails :
  forall k, (k < m)%nat -> promiseOrValue (fn config k) = Rejected (err k).
Hypothesis succeeds : promiseOrValue (fn config m) = Fulfilled v.








End UntilSuccess.

Section Forever.

Hypothesis retry_true : retry config = Some (RetryBool true).
Hypothesis always_fails :
  forall k, exists e, promiseOrValue (fn config k) = Rejected e.

Lemma shouldRetry_true (fc : Z) (e : TError) : shouldRetry config fc e = true.
Proof. unfold shouldRetry, retryOf. rewrite retry_true. reflexivity. Qed.

Lemma foreverInv_CreateRetryer (h : Host) : foreverInv (CreateRetryer config h).
Proof.
  unfold CreateRetryer, foreverInv.
  destruct (canFetch h (networkMode config)); simpl; auto.
Qed.

Lemma foreverInv_step (s : State) (i : Input) :
  quietRetry i -> foreverInv s -> foreverInv (step config s i).
Proof.
  intros U (R & RC & T).
  destruct s as [rc f r c t h l]. simpl in R, RC, T. subst r rc.
  destruct i; simpl in U; try contradiction;
    destruct t as [|p|e|[|e]|[|e]|[|e]]; try contradiction;
    try (unfold foreverInv; engine_cases; auto; fail).
  - destruct T as [e ->]. simpl. unfold onRejected. simpl.
    rewrite shouldRetry_true. unfold foreverInv. simpl. auto.
Qed.

Lemma foreverInv_exec (inputs : list Input) (s : State) :
  Forall quietRetry inputs -> foreverInv s -> foreverInv (exec config s inputs).
Proof.
  revert s. induction inputs as [|i inputs IH]; intros s U I; simpl; [exact I|].
  inversion U; subst. apply IH; [assumption|]. apply foreverInv_step; assumption.
Qed.

Lemma forever_grows (k : nat) (s : State) :
  (exists e, thread s = AwaitingFn (Rejected e)) ->
  isResolved s = false ->
  isRetryCancelled s = false ->
  shouldPause config (host s) = false ->
  attempts (log (exec config s (cycles k))) = (attempts (log s) + k)%nat.
Proof.
  revert s. induction k as [|k IH]; intros s [e T] R C P.
  - simpl. lia.
  - change (cycles (S k)) with (attemptCycle ++ cycles k).
    rewrite exec_app.
    rewrite (attemptCycle_retries e s T R C (shouldRetry_true _ _) P).
    rewrite IH; simpl; auto.
    + rewrite !attempts_app. simpl.
      destruct (onFail config); simpl; lia.
    + destruct (always_fails (attempts (log s))) as [e' ->]. eauto.
Qed.

(** X7.  The retry policy is [true] and every invocation of the unit of
    work fails.  In any run without [cancel] and [cancelRetry] the
    retryer never resolves: nothing is ever handed to the promise and the
    loop never ends; and every such run can be continued the same way to
    any number of invocations of the unit of work. *)
Theorem retry_true_never_gives_up (h : Host) (inputs : list Input) :
  Forall quietRetry inputs ->
  let s := exec config (CreateRetryer config h) inputs in
  isResolved s = false /\
  settlements (log s) = [] /\
  thread s <> Idle /\
  (forall k : nat,
     exists more,
       Forall quietRetry more /\
       (k <= attempts (log (exec config (CreateRetryer config h) (inputs ++ more))))%nat).
Proof.
  intros U s.
  pose proof (foreverInv_exec inputs _ U (foreverInv_CreateRetryer h)) as I.
  fold s in I. destruct I as (R & RC & T).
  split; [exact R|]. split; [|split].
  - pose proof (settledOnce_exec config inputs _ (settledOnce_CreateRetryer config h))
      as [Hs _].
    fold s in Hs. rewrite R in Hs. apply length_zero_iff_nil. exact Hs.
  - intros E. rewrite E in T. exact T.
  - intros k.
    assert (thread s <> Idle) as NI by (intros E; rewrite E in T; exact T).
    pose proof (continuationInv_exec config inputs _
                  (continuationInv_CreateRetryer config h)) as CI.
    destruct (reaches_attempt s CI R RC NI) as (pre & Upre & [p Tp] & P).
    pose proof (foreverInv_exec pre _ Upre
                  (foreverInv_exec inputs _ U (foreverInv_CreateRetryer h)))
      as (R' & RC' & T').
    fold s in R', RC', T'. rewrite Tp in T'. destruct T' as [e ->].
    exists (pre ++ cycles k). split.
    + apply Forall_app. split; [exact Upre|].
      rewrite <- (app_nil_r (cycles k)). apply cycles_quiet. constructor.
    + rewrite (exec_app config _ inputs), (exec_app config _ pre).
      rewrite forever_grows; eauto. lia.
Qed.

End Forever.

End RetryOutcomes.


Lemma retry_true_never_gives_up_witness :
  let cfg := Examples.allHooks (Some (RetryBool true)) None in
  let s := exec cfg (CreateRetryer cfg Examples.visible) (cycles 7) in
  isResolved s = false /\ settlements (log s) = [] /\ attempts (log s) = 8%nat.
Proof.
  destruct (retry_true_never_gives_up
              (Examples.allHooks (Some (RetryBool true)) None) eq_refl
              (fun k => ex_intro _ k eq_refl) Examples.visible (cycles 7))
    as (R & Hs & _).
  - repeat constructor.
  - split; [exact R|]. split; [exact Hs | reflexivity].
Defined.

(** ** Control calls during the loop *)

Section ControlCalls.

Context {TData TError : Type}.
Variable config : @RetryerConfig TData TError.

#[local] Abbreviation State := (@State TData TError).

Lemma abandonedInv_step (e : TError) (a : nat) (st : list (@Outcome TData TError))
    (s : State) (i : Input) :
  noResume i -> abandonedInv e a st s -> abandonedInv e a st (step config s i).
Proof.
  intros U (RC & A & [(R & W & Hs) | (R & T & Hs)]).
  - destruct s as [rc f r c t h l]. simpl in RC, A, R, W, Hs. subst rc r.
    unfold waitingRetry in W.
    destruct W as [-> | [-> | [-> | ->]]]; destruct i; simpl in U;
      try contradiction; unfold abandonedInv, waitingRetry;
      engine_cases; autorewrite with log_facts; simpl;
      rewrite ?app_nil_r, ?Nat.add_0_r, ?Hs;
      (split; [reflexivity|]); (split; [exact A|]); auto 8.
  - destruct (resolved_frozen config s i R) as [R' L'].
    unfold abandonedInv. rewrite L'. split; [|split; [exact A|right]].
    + destruct s as [rc f r c t h l]. simpl in RC, T, R. subst rc t r.
      destruct i; simpl in U; try contradiction; engine_cases; reflexivity.
    + split; [exact R'|]. split; [|exact Hs].
      destruct s as [rc f r c t h l]. simpl in RC, T, R. subst rc t r.
      destruct i; simpl in U; try contradiction; engine_cases; reflexivity.
Qed.

Lemma abandonedInv_exec (e : TError) (a : nat) (st : list (@Outcome TData TError))
    (inputs : list Input) (s : State) :
  Forall noResume inputs ->
  abandonedInv e a st s -> abandonedInv e a st (exec config s inputs).
Proof.
  revert s. induction inputs as [|i inputs IH]; intros s U I; simpl; [exact I|].
  inversion U; subst. apply IH; [assumption|]. apply abandonedInv_step; assumption.
Qed.

(** X8.  [cancelRetry()] is called during the wait that follows a failed
    attempt with error [e] (its delay, or the pause after it), on an
    unresolved retryer.  In any run from there without [cancel] and
    [continueRetry], the unit of work is never invoked again, and the
    promise is either still pending with the chain in the same wait, or
    has been rejected with [e] by the re-check; when the delay ends with
    the gates open, the next reaction does reject it. *)
Theorem cancelRetry_during_wait_rejects (e : TError) (s : State) (inputs : list Input) :
  waitingRetry e (thread s) ->
  isResolved s = false ->
  Forall noResume inputs ->
  let s' := exec config (step config s CancelRetry) inputs in
  attempts (log s') = attempts (log s) /\
  ((isResolved s' = false /\ waitingRetry e (thread s') /\
    settlements (log s') = settlements (log s)) \/
   (isResolved s' = true /\ thread s' = Idle /\
    settlements (log s') = settlements (log s) ++ [Failed (WorkError e)])) /\
  (thread s = Sleeping e ->
   settlements (log (exec config (step config s CancelRetry) (plainWait ++ [Microtask])))
   = settlements (log s) ++ [Failed (WorkError e)]).
Proof.
  intros W R U s'.
  assert (abandonedInv e (attempts (log s)) (settlements (log s))
            (step config s CancelRetry)) as I0.
  { destruct s as [rc f r c t h l]. simpl in W, R |- *.
    unfold abandonedInv. simpl. auto 6. }
  destruct (abandonedInv_exec e _ _ inputs _ U I0) as (_ & A & D).
  split; [exact A|]. split; [exact D|].
  intros T. destruct s as [rc f r c t h l]. simpl in T, R. subst t r.
  simpl. unfold afterSleep. simpl. rewrite (shouldPause_open config). simpl.
  unfold reject. simpl. unfold callContinueFn. simpl.
  destruct c as [[]|]; simpl; rewrite !settlements_app; simpl;
    destruct (onError config); simpl; rewrite ?app_nil_r; reflexivity.
Qed.

(** X9.  [cancelRetry()] while an invocation of the unit of work is in
    flight on an unresolved retryer: if the invocation fails with [e],
    the promise is rejected with [e] at once whatever the retry policy,
    with no call of [onFail], no delay and no change of the failure
    count; if it succeeds with [v] the promise is resolved with [v] all
    the same.  A [continueRetry()] before the completion undoes the
    [cancelRetry()]. *)
Theorem cancelRetry_in_flight (s : State) :
  isResolved s = false ->
  (forall e, thread s = AwaitingFn (Rejected e) ->
     let s' := exec config s [CancelRetry; FnSettled] in
     log s' = log s ++ (if onError config then [CallOnError (WorkError e)] else [])
                    ++ [PromiseReject (WorkError e)] /\
     isResolved s' = true /\
     failureCount s' = failureCount s) /\
  (forall v, thread s = AwaitingFn (Fulfilled v) ->
     let s' := exec config s [CancelRetry; FnSettled] in
     log s' = log s ++ (if onSuccess config then [CallOnSuccess v] else [])
                    ++ [PromiseResolve v] /\
     isResolved s' = true) /\
  (isRetryCancelled s = false ->
   exec config s [CancelRetry; ContinueRetry; FnSettled] = exec config s [FnSettled]).
Proof.
  intros R. destruct s as [rc f r c t h l]. simpl in R. subst r.
  split; [|split].
  - intros e T. simpl in T. subst t. simpl. unfold onRejected. simpl.
    engine_cases; rewrite <- ?app_assoc; auto.
  - intros v T. simpl in T. subst t. simpl.
    engine_cases; rewrite <- ?app_assoc; auto.
  - simpl. intros ->. reflexivity.
Qed.

(** X10.  In every run, [continueFn] holds a continuation exactly while a
    pause promise of the chain exists (the pause is open, or it has been
    resolved and its reaction is still queued); at any other moment
    [continue()] changes nothing at all. *)
Theorem continue_outside_pause_is_noop (h : Host) (inputs : list Input) :
  let s := exec config (CreateRetryer config h) inputs in
  (continueFn s = Some ContinueResolve <-> pauseOpen (thread s) = true) /\
  (continueFn s = None <-> pauseOpen (thread s) = false) /\
  (pauseOpen (thread s) = false -> step config s Continue = s).
Proof.
  intros s.
  pose proof (continuationInv_exec config inputs _
                (continuationInv_CreateRetryer config h)) as CI.
  fold s in CI. unfold continuationInv in CI.
  destruct (pauseOpen (thread s)) eqn:P; rewrite CI;
    repeat split; intros; try discriminate; auto.
  destruct s as [rc f r c t h' l]. simpl in CI. subst c. reflexivity.
Qed.

End ControlCalls.

(** ** The pause window *)

Section PauseWindow.

Context {TData TError : Type}.
Variable config : @RetryerConfig TData TError.

#[local] Abbreviation State := (@State TData TError).

Lemma paused_step (k : Resume) (s : State) (i : Input) :
  pageUnchanged i ->
  thread s = Paused k ->
  continueFn s = Some ContinueResolve ->
  isResolved s = false ->
  isFocused (host s) = false ->
  thread (step config s i) = Paused k /\
  continueFn (step config s i) = Some ContinueResolve /\
  isResolved (step config s i) = false /\
  isFocused (host (step config s i)) = false /\
  failureCount (step config s i) = failureCount s /\
  log (step config s i) = log s ++ pings config [i].
Proof.
  destruct s as [rc f r c t h l]. simpl. intros U -> -> -> F.
  unfold pings.
  destruct i; simpl in U; try contradiction; simpl;
    try (destruct (onPause config); simpl; rewrite ?app_nil_r; auto 7; fail).
  - unfold callContinueFn. simpl. unfold shouldPause. rewrite F. simpl.
    destruct (onPause config); simpl; auto 7.
Qed.

Lemma pings_cons (i : Input) (inputs : list Input) :
  pings config (i :: inputs) = pings config [i] ++ pings config inputs.
Proof.
  unfold pings. destruct (onPause config); [|reflexivity].
  simpl. destruct (isContinue i); reflexivity.
Qed.

Lemma pings_silent (inputs : list Input) :
  attempts (pings config inputs) = 0%nat /\ settlements (pings config inputs) = [].
Proof.
  unfold pings. destruct (onPause config); [|split; reflexivity].
  induction (List.length (filter isContinue inputs)); simpl; auto.
Qed.

Lemma paused_exec (k : Resume) (inputs : list Input) (s : State) :
  Forall pageUnchanged inputs ->
  thread s = Paused k ->
  continueFn s = Some ContinueResolve ->
  isResolved s = false ->
  isFocused (host s) = false ->
  thread (exec config s inputs) = Paused k /\
  isResolved (exec config s inputs) = false /\
  failureCount (exec config s inputs) = failureCount s /\
  log (exec config s inputs) = log s ++ pings config inputs.
Proof.
  revert s. induction inputs as [|i inputs IH]; intros s U T C R F.
  - simpl. unfold pings. simpl.
    destruct (onPause config); rewrite app_nil_r; auto.
  - inversion U; subst.
    destruct (paused_step k s i) as (T' & C' & R' & F' & N' & L'); auto.
    destruct (IH (step config s i)) as (T'' & R'' & N'' & L''); auto.
    simpl. rewrite pings_cons, app_assoc, <- L'.
    repeat split; auto. congruence.
Qed.

(** X11.  A pause is open on an unresolved retryer while the page is not
    focused.  As long as the visibility of the page does not change and
    [cancel] is not called, whatever else happens (any number of
    [continue()] calls, changes of the online gate, [cancelRetry],
    [continueRetry]): the pause stays open, the failure count is
    unchanged, and the only effects are one call of [onPause], if the
    hook is present, for each [continue()]; in particular the unit of
    work is not invoked and the promise is not settled. *)
Theorem continue_while_unfocused_keeps_pause
    (h : Host) (pre inputs : list Input) (k : Resume) :
  let s := exec config (CreateRetryer config h) pre in
  thread s = Paused k ->
  isResolved s = false ->
  isFocused (host s) = false ->
  Forall pageUnchanged inputs ->
  let s' := exec config s inputs in
  thread s' = Paused k /\
  isResolved s' = false /\
  failureCount s' = failureCount s /\
  log s' = log s ++ pings config inputs /\
  attempts (log s') = attempts (log s) /\
  settlements (log s') = settlements (log s).
Proof.
  intros s T R F U s'.
  pose proof (continuationInv_exec config pre _
                (continuationInv_CreateRetryer config h)) as CI.
  fold s in CI. unfold continuationInv in CI. rewrite T in CI. simpl in CI.
  destruct (paused_exec k inputs s U T CI R F) as (T' & R' & N' & L').
  fold s' in T', R', N', L'.
  split; [exact T'|]. split; [exact R'|]. split; [exact N'|].
  split; [exact L'|]. rewrite L', attempts_app, settlements_app.
  destruct (pings_silent inputs) as [-> ->].
  rewrite app_nil_r. split; [lia | reflexivity].
Qed.

(** X12.  [cancel(options)] while a pause is open on an unresolved
    retryer releases the pause: the two reactions that were waiting for
    it then run without calling [onContinue] and without invoking the
    unit of work, the chain ends, and [continueFn] is cleared.  The log
    gains exactly what [cancel] itself does. *)
Theorem cancel_while_paused_ends_chain
    (h : Host) (pre : list Input) (k : Resume) (o : option CancelOptions) :
  let s := exec config (CreateRetryer config h) pre in
  thread s = Paused k ->
  isResolved s = false ->
  let s' := exec config s [Cancel o; Microtask; Microtask] in
  thread (step config s (Cancel o)) = PauseClosing k /\
  thread s' = Idle /\
  continueFn s' = None /\
  isResolved s' = true /\
  log s' = log (step config s (Cancel o)) /\
  log s' = log s
    ++ (if onError config
        then [CallOnError (Cancellation (newCancelledError o))] else [])
    ++ [PromiseReject (Cancellation (newCancelledError o))]
    ++ (if abort config then [CallAbort] else []).
Proof.
  intros s T R s'.
  pose proof (continuationInv_exec config pre _
                (continuationInv_CreateRetryer config h)) as CI.
  fold s in CI. unfold continuationInv in CI. rewrite T in CI. simpl in CI.
  subst s'. destruct s as [rc f r c t h' l]. simpl in T, R, CI. subst t r c.
  simpl. unfold cancel. simpl. unfold reject. simpl.
  unfold callContinueFn. simpl.
  destruct k as [|e]; simpl; unfold resume, run; simpl;
    destruct rc; simpl; unfold reject; simpl;
    rewrite <- ?app_assoc; repeat split.
Qed.

End PauseWindow.

(** ** Synchronous and asynchronous units of work *)

Section Normalisation.

Context {TData TError : Type}.
Variable config : @RetryerConfig TData TError.
Variables f1 f2 : nat -> @FnBehaviour TData TError.
Hypothesis same_outcome : forall k, promiseOrValue (f1 k) = promiseOrValue (f2 k).

Lemma withFn_step (s : @State TData TError) (i : Input) :
  step (withFn f1 config) s i = step (withFn f2 config) s i.
Proof.
  destruct config as [f a oe os ofl op oc r rd nm].
  destruct s as [rc fc res c t h l]. unfold withFn. simpl.
  destruct i; destruct t as [|[d|e]|e|[|e]|[|e]|[|e]];
    engine_unfold; unfold shouldRetry, retryOf, delayOf, shouldPause;
    cbn; rewrite ?same_outcome; reflexivity.
Qed.

(** X13.  Two units of work whose invocations settle alike, number by
    number, once a returned value is taken as a fulfilled promise and a
    thrown error as a rejected one, give the same run: the same state and
    the same log after the same events.  So a unit of work that throws is
    not told from one that returns a rejected promise. *)
Theorem sync_and_async_runs_agree (h : Host) (inputs : list Input) :
  exec (withFn f1 config) (CreateRetryer (withFn f1 config) h) inputs
  = exec (withFn f2 config) (CreateRetryer (withFn f2 config) h) inputs.
Proof.
  assert (CreateRetryer (withFn f1 config) h = CreateRetryer (withFn f2 config) h)
    as ->.
  { unfold CreateRetryer, run. simpl. rewrite same_outcome. reflexivity. }
  generalize (CreateRetryer (withFn f2 config) h).
  induction inputs as [|i inputs IH]; intros s; simpl; [reflexivity|].
  rewrite withFn_step. apply IH.
Qed.

End Normalisation.

Lemma cancelRetry_during_wait_rejects_witness :
  let cfg := Examples.allHooks (Some (RetryBool true)) None in
  let s := exec cfg (CreateRetryer cfg Examples.visible) [FnSettled] in
  thread s = Sleeping 0%nat /\
  settlements (log (exec cfg (step cfg s CancelRetry) (plainWait ++ [Microtask])))
  = [Failed (WorkError 0%nat)].
Proof.
  split; [reflexivity|].
  refine (proj2 (proj2 (cancelRetry_during_wait_rejects
            (Examples.allHooks (Some (RetryBool true)) None) 0%nat
            (exec (Examples.allHooks (Some (RetryBool true)) None)
               (CreateRetryer (Examples.allHooks (Some (RetryBool true)) None)
                  Examples.visible) [FnSettled])
            (plainWait ++ [Microtask]) (or_introl eq_refl) eq_refl _)) eq_refl).
  repeat constructor.
Defined.

Lemma cancelRetry_in_flight_witness :
  let cfg := Examples.allHooks (Some (RetryBool true)) None in
  let s := CreateRetryer cfg Examples.visible in
  log (exec cfg s [CancelRetry; FnSettled])
  = [CallFn; CallOnError (WorkError 0%nat); PromiseReject (WorkError 0%nat)].
Proof.
  exact (proj1 (proj1 (cancelRetry_in_flight
           (Examples.allHooks (Some (RetryBool true)) None)
           (CreateRetryer (Examples.allHooks (Some (RetryBool true)) None)
              Examples.visible) eq_refl) 0%nat eq_refl)).
Defined.

Lemma continue_outside_pause_is_noop_witness :
  let cfg := Examples.allHooks None None in
  let s := exec cfg (CreateRetryer cfg Examples.hidden) [FnSettled] in
  thread s = Sleeping 0%nat /\ step cfg s Continue = s.
Proof.
  split; [reflexivity|].
  exact (proj2 (proj2 (continue_outside_pause_is_noop (Examples.allHooks None None)
           Examples.hidden [FnSettled])) eq_refl).
Defined.

Lemma continue_while_unfocused_keeps_pause_witness :
  let cfg := Examples.allHooks None None in
  let s := exec cfg (CreateRetryer cfg Examples.hidden) [FnSettled; TimerFired] in
  thread s = Paused (ThenRetry 0%nat) /\
  log (exec cfg s [Continue; OnlineChange false; Continue; CancelRetry; Continue])
  = log s ++ [CallOnPause; CallOnPause; CallOnPause].
Proof.
  split; [reflexivity|].
  refine (proj1 (proj2 (proj2 (proj2 (continue_while_unfocused_keeps_pause
            (Examples.allHooks None None) Examples.hidden [FnSettled; TimerFired]
            [Continue; OnlineChange false; Continue; CancelRetry; Continue]
            (ThenRetry 0%nat) eq_refl eq_refl eq_refl _))))).
  repeat constructor.
Defined.

Lemma cancel_while_paused_ends_chain_witness :
  let cfg := Examples.allHooks None (Some online) in
  let s := CreateRetryer cfg Examples.offline in
  let c := Cancellation (mkCancelledError (Some false) None) in
  let s' := exec cfg s [Cancel (Some (mkCancelOptions (Some false) None));
                        Microtask; Microtask] in
  thread s' = Idle /\ continueFn s' = None /\
  log s' = [CallOnError c; PromiseReject c; CallAbort].
Proof.
  destruct (cancel_while_paused_ends_chain (Examples.allHooks None (Some online))
              Examples.offline [] ThenRun
              (Some (mkCancelOptions (Some false) None)) eq_refl eq_refl)
    as (_ & T & C & _ & _ & L).
  split; [exact T|]. split; [exact C | exact L].
Defined.

Lemma sync_and_async_runs_agree_witness :
  let inputs := cycles 2 ++ [FnSettled] in
  exec (withFn MoreExamples.failsTwice (MoreExamples.flaky None))
       (CreateRetryer (withFn MoreExamples.failsTwice (MoreExamples.flaky None))
          Examples.visible) inputs
  = exec (withFn MoreExamples.failsTwiceAsync (MoreExamples.flaky None))
       (CreateRetryer (withFn MoreExamples.failsTwiceAsync (MoreExamples.flaky None))
          Examples.visible) inputs.
Proof.
  apply (sync_and_async_runs_agree (MoreExamples.flaky None)
           MoreExamples.failsTwice MoreExamples.failsTwiceAsync).
  intros k. unfold MoreExamples.failsTwice, MoreExamples.failsTwiceAsync.
  destruct (k <? 2)%nat; reflexivity.
Defined.

(** ** Closing a pause, and retry counts in general *)

Section ClosingPause.

Context {TData TError : Type}.
Variable config : @RetryerConfig TData TError.

#[local] Abbreviation State := (@State TData TError).

Lemma closing_step (k : Resume) (s : State) (i : Input) :
  notMicrotask i ->
  thread s = PauseClosing k ->
  thread (step config s i) = PauseClosing k /\
  attempts (log (step config s i)) = attempts (log s).
Proof.
  destruct s as [rc f r c t h l]. simpl. intros U ->.
  destruct i; simpl in U; try contradiction; engine_cases;
    autorewrite with log_facts; simpl; rewrite ?Nat.add_0_r; auto.
Qed.

Lemma closing_exec (k : Resume) (inputs : list Input) (s : State) :
  Forall notMicrotask inputs ->
  thread s = PauseClosing k ->
  thread (exec config s inputs) = PauseClosing k /\
  attempts (log (exec config s inputs)) = attempts (log s).
Proof.
  revert s. induction inputs as [|i inputs IH]; intros s U T; simpl; [auto|].
  inversion U; subst.
  destruct (closing_step k s i) as [T' A']; auto.
  destruct (IH (step config s i)) as [T'' A'']; auto.
  split; [exact T'' | congruence].
Qed.

(** X14.  A pause is open on an unresolved retryer and [shouldPause()] is
    false.  Then [continue()] closes it: the reaction of the pause clears
    [continueFn], calls [onContinue] if present, and hands over to the
    rest of the chain.  Between that [continue()] and the reaction,
    nothing can reopen the pause (further [continue()] calls, gate
    changes, control calls): the chain still goes on at the next
    reaction, and the unit of work is not invoked in between. *)
Theorem continue_closes_pause_for_good
    (h : Host) (pre between : list Input) (k : Resume) :
  let s := exec config (CreateRetryer config h) pre in
  thread s = Paused k ->
  isResolved s = false ->
  shouldPause config (host s) = false ->
  Forall notMicrotask between ->
  log (exec config s [Continue; Microtask]) =
    log s ++ (if onContinue config then [CallOnContinue] else []) /\
  continueFn (exec config s [Continue; Microtask]) = None /\
  thread (exec config s [Continue; Microtask]) = Resuming k /\
  thread (exec config s (Continue :: between)) = PauseClosing k /\
  attempts (log (exec config s (Continue :: between))) = attempts (log s) /\
  thread (exec config s (Continue :: between ++ [Microtask])) = Resuming k /\
  continueFn (exec config s (Continue :: between ++ [Microtask])) = None.
Proof.
  intros s T R P U.
  pose proof (continuationInv_exec config pre _
                (continuationInv_CreateRetryer config h)) as CI.
  fold s in CI. unfold continuationInv in CI. rewrite T in CI. simpl in CI.
  clearbody s.
  assert (step config s Continue = set_thread (PauseClosing k) s) as E.
  { destruct s as [rc f r c t h' l]. simpl in T, R, P, CI. subst t r c.
    simpl. unfold callContinueFn. simpl. rewrite P. reflexivity. }
  assert (thread (step config s Continue) = PauseClosing k
          /\ log (step config s Continue) = log s
          /\ isResolved (step config s Continue) = false) as (T1 & L1 & R1).
  { rewrite E. destruct s. simpl in R |- *. auto. }
  change (exec config s [Continue; Microtask])
    with (step config (step config s Continue) Microtask).
  split; [|split; [|split]].
  - rewrite E. destruct s as [rc f r c t h' l]. simpl in R. subst r. reflexivity.
  - rewrite E. destruct s as [rc f r c t h' l]. simpl in R. subst r. reflexivity.
  - rewrite E. destruct s as [rc f r c t h' l]. simpl in R. subst r. reflexivity.
  - destruct (closing_exec k between _ U T1) as [T2 A2].
    change (exec config s (Continue :: between))
      with (exec config (step config s Continue) between).
    change (exec config s (Continue :: between ++ [Microtask]))
      with (exec config (step config s Continue) (between ++ [Microtask])).
    rewrite exec_app. rewrite L1 in A2.
    split; [exact T2|]. split; [exact A2|].
    destruct (exec config (step config s Continue) between) as [rc f r c t h' l].
    simpl in T2. subst t. simpl. destruct r; split; reflexivity.
Qed.

End ClosingPause.

Lemma continue_closes_pause_for_good_witness :
  let cfg := Examples.allHooks None (Some online) in
  let s := CreateRetryer cfg Examples.offline in
  let between := [VisibilityChange (Some "hidden"%string); Continue; CancelRetry] in
  thread s = Paused ThenRun /\
  thread (exec cfg s (Continue :: between)) = PauseClosing ThenRun /\
  thread (exec cfg s (Continue :: between ++ [Microtask])) = Resuming ThenRun.
Proof.
  destruct (continue_closes_pause_for_good (Examples.allHooks None (Some online))
              Examples.offline []
              [VisibilityChange (Some "hidden"%string); Continue; CancelRetry]
              ThenRun eq_refl eq_refl eq_refl)
    as (_ & _ & _ & T1 & _ & T2 & _).
  - repeat constructor.
  - split; [reflexivity|]. split; [exact T1 | exact T2].
Defined.

Section RetryNumbers.

Context {TData TError : Type}.
Variable config : @RetryerConfig TData TError.
Variable err : nat -> TError.
Hypothesis always_fails :
  forall k, promiseOrValue (fn config k) = Rejected (err k).

Lemma shouldRetry_number (z : Z) (fc : nat) (e : TError) :
  retry config = Some (RetryNumber z) ->
  shouldRetry config (Z.of_nat fc) e = (fc <? Z.to_nat z)%nat.
Proof.
  intros H. unfold shouldRetry, retryOf. rewrite H.
  destruct (Z.ltb_spec (Z.of_nat fc) z), (Nat.ltb_spec fc (Z.to_nat z));
    auto; lia.
Qed.

(** X15.  The retry policy is an integer [z] and every invocation of the
    unit of work fails.  With [n] the number [z] if it is positive and 0
    otherwise: in any run without [cancel] (and without [cancelRetry],
    unless [n] is 0) there are at most [n + 1] invocations; when the
    retryer is resolved there have been exactly [n + 1], [onFail] has
    been called with the counts 1 to [n] in order, the failure count is
    [n], and the promise has been rejected with the error of the last
    invocation.  A negative count behaves as 0.  Every such run can be
    continued the same way until the retryer is resolved. *)
Theorem retry_number_gives_that_many_retries
    (z : Z) (h : Host) (inputs : list Input) :
  retry config = Some (RetryNumber z) ->
  let n := Z.to_nat z in
  Forall (undisturbed n) inputs ->
  let s := exec config (CreateRetryer config h) inputs in
  (attempts (log s) <= S n)%nat /\
  (isResolved s = false -> settlements (log s) = []) /\
  (isResolved s = true ->
     attempts (log s) = S n /\
     failureCount s = Z.of_nat n /\
     onFailCalls (log s) = (if onFail config then expectedFails err n else []) /\
     settlements (log s) = [Failed (WorkError (err n))]) /\
  (exists more,
     Forall (undisturbed n) more /\
     isResolved (exec config (CreateRetryer config h) (inputs ++ more)) = true).
Proof.
  intros Hr n U s.
  pose proof (fun fc e => shouldRetry_number z fc e Hr) as RC. fold n in RC.
  pose proof (loopInv_exec config n err RC always_fails inputs _ U
                (loopInv_CreateRetryer config n err always_fails h)) as I.
  destruct (loopInv_log config n err s I) as (A & _ & N & D).
  split; [exact A|]. split; [exact N|]. split.
  - intros R. destruct (D R) as (D1 & D2 & D3).
    split; [exact D1|]. split; [|split; [exact D2 | exact D3]].
    fold s in I. destruct I as [_ (fc & F & _ & _ & St)].
    unfold loopStage in St.
    destruct (thread s) as [| | |[]|[]|[]]; destruct St as (R' & B & _);
      congruence.
  - exact (loop_can_settle config n err RC always_fails h inputs U).
Qed.

End RetryNumbers.

Lemma retry_number_gives_that_many_retries_witness :
  let cfg := Examples.allHooks (Some (RetryNumber (-2))) None in
  let s := exec cfg (CreateRetryer cfg Examples.visible) [CancelRetry; FnSettled] in
  isResolved s = true /\
  attempts (log s) = 1%nat /\ failureCount s = 0 /\ onFailCalls (log s) = [] /\
  settlements (log s) = [Failed (WorkError 0%nat)].
Proof.
  split; [reflexivity|].
  refine (proj1 (proj2 (proj2
    (retry_number_gives_that_many_retries
       (Examples.allHooks (Some (RetryNumber (-2))) None) (fun k => k)
       (fun k => eq_refl) (-2) Examples.visible [CancelRetry; FnSettled]
       eq_refl _))) eq_refl).
  repeat constructor.
Defined.

(** ** Where the outcome of the promise comes from *)

Section Provenance.

Context {TData TError : Type}.
Variable config : @RetryerConfig TData TError.

#[local] Abbreviation State := (@State TData TError).

Lemma lastInv_step (s : State) (i : Input) :
  settledOnce s -> countInv config s -> lastInv config s ->
  lastInv config (step config s i).
Proof.
  intros [Hs _] (fc & F & _ & _ & St). unfold lastInv.
  destruct (isResolved s) eqn:R.
  - destruct (resolved_frozen config s i R) as [_ ->]. auto.
  - intros _. destruct s as [rc f r c t h l]. simpl in R, Hs, F, St. subst r f.
    apply length_zero_iff_nil in Hs. unfold countStage in St. simpl in St.
    destruct i; destruct t as [|[d|e]|e|[|e]|[|e]|[|e]];
      engine_cases; rewrite ?settlements_app, ?attempts_app; simpl;
      rewrite ?Hs; simpl; repeat constructor;
      rewrite ?Nat.add_0_r;
      first [ destruct St as (A & j & -> & P); rewrite A; simpl;
              rewrite ?Nat.sub_0_r; first [lia | exact P]
            | destruct St as (A & P); rewrite A; simpl;
              rewrite ?Nat.sub_0_r; first [lia | congruence] ].
Qed.

Lemma lastInv_exec (inputs : list Input) (s : State) :
  settledOnce s -> countInv config s -> lastInv config s ->
  lastInv config (exec config s inputs).
Proof.
  revert s. induction inputs as [|i inputs IH]; intros s O C L; simpl; [exact L|].
  apply IH; [apply settledOnce_step, O | apply countInv_step, C
            | apply lastInv_step; assumption].
Qed.

(** X16.  In every run, whatever the policies and the control calls, an
    outcome handed to the promise is the very value or error that the
    latest invocation of the unit of work produced, passed on as it is,
    or else the object that [cancel] made; the object that [cancel] made
    occurs only in a run in which [cancel] was called.  In a run without
    [cancel] every rejection is the error of the latest invocation, and
    [isCancelledError] holds of it exactly when that error is itself an
    instance of [CancelledError].  The engine never makes up a value or
    an error of its own and never settles with the outcome of an earlier
    attempt. *)
Theorem outcome_is_latest_attempt (h : Host) (inputs : list Input) :
  let s := exec config (CreateRetryer config h) inputs in
  (forall data, In (Success data) (settlements (log s)) ->
     (1 <= attempts (log s))%nat /\
     promiseOrValue (fn config (attempts (log s) - 1)) = Fulfilled data) /\
  (forall value, In (Failed value) (settlements (log s)) ->
     (exists e, value = WorkError e /\ (1 <= attempts (log s))%nat /\
        promiseOrValue (fn config (attempts (log s) - 1)) = Rejected e) \/
     (exists c, value = Cancellation c /\ existsb isCancel inputs = true)) /\
  (existsb isCancel inputs = false ->
   forall value, In (Failed value) (settlements (log s)) ->
     exists e, value = WorkError e /\ (1 <= attempts (log s))%nat /\
       promiseOrValue (fn config (attempts (log s) - 1)) = Rejected e /\
       forall isInstance : TError -> bool,
         isCancelledError isInstance value = isInstance e).
Proof.
  intros s.
  assert (lastInv config s) as L.
  { apply lastInv_exec;
      [apply settledOnce_CreateRetryer | apply countInv_CreateRetryer|].
    unfold lastInv, CreateRetryer.
    destruct (canFetch h (networkMode config)); constructor. }
  unfold lastInv in L. rewrite Forall_forall in L.
  assert (forall c, In (Failed (Cancellation c)) (settlements (log s)) ->
          existsb isCancel inputs = true) as OnlyCancel.
  { intros c Hin.
    destruct (existsb isCancel inputs) eqn:NC; [reflexivity|].
    assert (filter madeByCancel (settlements (log s)) = []) as F.
    { apply no_cancellation_exec; [exact NC|].
      unfold CreateRetryer.
      destruct (canFetch h (networkMode config)); reflexivity. }
    assert (In (Failed (Cancellation c))
              (filter madeByCancel (settlements (log s)))) as Hf
      by (apply filter_In; split; [exact Hin | reflexivity]).
    rewrite F in Hf. destruct Hf. }
  split; [|split].
  - intros data Hin. exact (L _ Hin).
  - intros [e|c] Hin.
    + left. exists e. split; [reflexivity | exact (L _ Hin)].
    + right. exists c. split; [reflexivity | exact (OnlyCancel c Hin)].
  - intros NC [e|c] Hin.
    + exists e. split; [reflexivity|].
      destruct (L _ Hin) as [A P]. split; [exact A|]. split; [exact P|].
      intros isInstance. reflexivity.
    + rewrite (OnlyCancel c Hin) in NC. discriminate.
Qed.

End Provenance.

Lemma outcome_is_latest_attempt_witness :
  let cfg := Examples.allHooks (Some (RetryBool false)) None in
  let s := exec cfg (CreateRetryer cfg Examples.visible) [FnSettled] in
  settlements (log s) = [Failed (WorkError 0%nat)] /\
  exists e, @WorkError nat 0%nat = WorkError e /\ (1 <= attempts (log s))%nat /\
    promiseOrValue (fn cfg (attempts (log s) - 1)) = Rejected e /\
    forall isInstance : nat -> bool,
      isCancelledError isInstance (WorkError 0%nat) = isInstance e.
Proof.
  split; [reflexivity|].
  exact (proj2 (proj2 (outcome_is_latest_attempt
           (Examples.allHooks (Some (RetryBool false)) None)
           Examples.visible [FnSettled])) eq_refl
           (WorkError 0%nat) (or_introl eq_refl)).
Defined.
